(** * PrintFilterData: gathering, reordering and printing of filter data

    A shallow embedding of [src/ufo/filters/PrintFilterData.cc].

    Conventions of the embedding:
    - C++ [int] and [size_t] values are integers of [Z] (sizes are [nat]);
      signed overflow is undefined in C++ and lies outside the model;
    - [std::vector<int>] is [list Z]; [operator[]] outside the vector is
      undefined behaviour and is modelled by the exception [OutOfBounds];
    - [throw] is the constructor [Raise] of the [result] monad;
    - [std::map<std::string, variant>] (the member [filterData_]) is a
      [gmap string column];
    - text sent to [os_] and the collective calls are recorded, in order,
      in a list of events. *)

From Stdlib Require Import ZArith List String Ascii Lia Sorting.Sorted Sorting.Permutation.
From stdpp Require Import base tactics option list sorting gmap strings pretty.

Local Open Scope string_scope.
Local Open Scope list_scope.
Local Open Scope Z_scope.

(** ** Exceptions and the result monad *)

Inductive exn : Type :=
| BadValue (msg : string)            (* eckit::BadValue *)
| BadParameter (msg : string)        (* eckit::BadParameter *)
| BadGet                             (* boost::bad_get *)
| OutOfBounds (i : Z) (size : nat)   (* v[i] with i outside 0 .. size-1 *)
| DivisionByZero.                    (* integer division by zero *)

Inductive result (A : Type) : Type :=
| Ok (a : A)
| Raise (e : exn).

Arguments Ok {A} a.
Arguments Raise {A} e.

Definition rbind {A B : Type} (k : A -> result B) (r : result A) : result B :=
  match r with
  | Ok a => k a
  | Raise e => Raise e
  end.

(** [x ← r; k] runs [r] and, unless it raised, continues with [k]. *)
#[global] Instance result_bind : MBind result := @rbind.
#[global] Instance result_ret : MRet result := @Ok.

(** ** Vectors of [int] *)

(** [v[i]], checked: the places where the index is computed from data. *)
Definition vat {A : Type} (v : list A) (i : Z) : result A :=
  if i <? 0 then Raise (OutOfBounds i (length v))
  else match v !! Z.to_nat i with
       | Some x => Ok x
       | None => Raise (OutOfBounds i (length v))
       end.

(** [v[i]] where [i] is a position taken from [0 .. size-1] by
    construction (see [sortIndices_in_range]). *)
Definition vget (v : list Z) (i : Z) : Z := nth (Z.to_nat i) v 0.

(** [std::vector<int> v(n); std::iota(v.begin(), v.end(), 0)]. *)
Definition iota (n : nat) : list Z := map Z.of_nat (seq 0 n).

(** ** [std::stable_sort]

    The library routine is modelled by a stable insertion sort: an element
    is placed before the first element that is not smaller than it under
    [less], so elements that compare equivalent keep their input order. *)

Fixpoint stable_insert (less : Z -> Z -> bool) (x : Z) (l : list Z) : list Z :=
  match l with
  | [] => [x]
  | y :: l' => if less y x then y :: stable_insert less x l' else x :: y :: l'
  end.

Definition stable_sort (less : Z -> Z -> bool) (l : list Z) : list Z :=
  foldr (stable_insert less) [] l.

(** ** Global Index Reconciler (printAllData, lines 264-283) *)

(** The comparator [[&globalIndex](int idx1, int idx2)
    {return globalIndex[idx1] < globalIndex[idx2];}]. *)
Definition index_less (globalIndex : list Z) (idx1 idx2 : Z) : bool :=
  vget globalIndex idx1 <? vget globalIndex idx2.

Definition sortIndices (nlocs : nat) (globalIndex : list Z) : list Z :=
  stable_sort (index_less globalIndex) (iota nlocs).

(** [permutedGlobalIndex[idx] = globalIndex[sortIndices[idx]]] for
    [idx = 0 .. nlocs-1]. *)
Definition permutedGlobalIndex (globalIndex sortIdx : list Z) : list Z :=
  map (vget globalIndex) sortIdx.

(** ** Bounds of the display window (lines 238-241) *)

Definition effective_locmin (nlocs : nat) (locmin : Z) : Z :=
  if locmin >=? Z.of_nat nlocs then Z.of_nat nlocs - 1 else locmin.

Definition effective_locmax (nlocs : nat) (locmax : Z) : Z :=
  if locmax =? 0 then Z.of_nat nlocs else locmax.

Definition check_range (locmin locmax : Z) : result unit :=
  if locmin >? locmax
  then Raise (BadValue "Minimum location cannot be larger than maximum location")
  else Ok tt.

(** ** Row selection (lines 287-300)

    The loop runs over [idx = 0 .. nlocs-1] and reads
    [loc = permutedGlobalIndex[idx]]; here it runs over the elements of
    [permutedGlobalIndex].  [&&] evaluates its right operand only when the
    left one holds, so [sortIndices[loc]] and [globalApply[...]] are read
    only for [locmin <= loc < locmax]. *)

Fixpoint select_loop (sortIdx globalApply : list Z) (locmin locmax : Z)
    (permuted : list Z) (locsToPrint indicesToPrint : list Z)
  : result (list Z * list Z) :=
  match permuted with
  | [] => Ok (locsToPrint, indicesToPrint)
  | loc :: rest =>
      if (loc >=? locmin) && (loc <? locmax) then
        pos ← vat sortIdx loc;
        app ← vat globalApply pos;
        if app =? 0 then
          select_loop sortIdx globalApply locmin locmax rest
            locsToPrint indicesToPrint
        else
          select_loop sortIdx globalApply locmin locmax rest
            (locsToPrint ++ [loc]) (indicesToPrint ++ [pos])
      else
        select_loop sortIdx globalApply locmin locmax rest
          locsToPrint indicesToPrint
  end.

Definition select_rows (nlocs : nat) (locmin locmax : Z)
    (globalApply globalIndex : list Z) : result (list Z * list Z) :=
  let sortIdx := sortIndices nlocs globalIndex in
  select_loop sortIdx globalApply locmin locmax
    (permutedGlobalIndex globalIndex sortIdx) [] [].

(** ** Row Paginator (lines 242-246 and 308-321) *)

(** [std::max((maxTextWidth - maxVariableNameLength) / (columnWidth + 3), 1)];
    [/] on [int] truncates towards zero ([Z.quot]). *)
Definition nlocsPerRow (maxTextWidth maxVariableNameLength columnWidth : Z)
  : result Z :=
  if columnWidth + 3 =? 0 then Raise DivisionByZero
  else Ok (Z.max (Z.quot (maxTextWidth - maxVariableNameLength) (columnWidth + 3)) 1).

(** [rows.back().push_back(x)]. *)
Definition back_push_back (rows : list (list Z)) (x : Z) : result (list (list Z)) :=
  match last rows with
  | Some r => Ok (removelast rows ++ [r ++ [x]])
  | None => Raise (OutOfBounds (-1) 0)
  end.

(** The loop over [i = 0 .. locsToPrint.size()-1]; [sel] pairs
    [locsToPrint[i]] with [indicesToPrint[i]]. *)
Fixpoint paginate_loop (perRow : Z) (sel : list (Z * Z)) (count : Z)
    (rowOfLocsToPrint rowOfIndicesToPrint : list (list Z))
  : result (list (list Z) * list (list Z)) :=
  match sel with
  | [] => Ok (rowOfLocsToPrint, rowOfIndicesToPrint)
  | (loc, idx) :: rest =>
      let newrow := Z.rem count perRow =? 0 in
      let rl := if newrow then rowOfLocsToPrint ++ [[]] else rowOfLocsToPrint in
      let ri := if newrow then rowOfIndicesToPrint ++ [[]] else rowOfIndicesToPrint in
      rl' ← back_push_back rl loc;
      ri' ← back_push_back ri idx;
      paginate_loop perRow rest (count + 1) rl' ri'
  end.

Definition paginate (perRow : Z) (locsToPrint indicesToPrint : list Z)
  : result (list (list Z) * list (list Z)) :=
  paginate_loop perRow (zip locsToPrint indicesToPrint) 0 [] [].

(** ** Fields and Display Keys *)

(** [ufo::Variable] is declared outside this file; the members the filter
    calls are the fields of the record
    ([Variable] is a reserved word, hence the name). *)
Record ufoVariable : Type := {
  group : string;               (* variable.group() *)
  fullName : string;            (* variable.fullName() *)
  channels : list Z;            (* variable.channels() *)
  size : nat;                   (* variable.size() *)
  variable : Z -> string        (* variable.variable(jj) *)
}.

(** [VariablePrintParameters]; [levels] lists the [std::set<int>] in
    ascending order, the order in which the set is iterated. *)
Record VariablePrintParameters : Type := {
  pvariable : ufoVariable;
  levels : list Z
}.

Definition getVariableNameAtLevel (varname : string) (level : Z) : string :=
  varname +:+ " (level " +:+ pretty level +:+ ")".

Definition getVariableNameWithChannel (v : ufoVariable) (channel : Z) : string :=
  group v +:+ "/" +:+ variable v channel.

Definition isMultiLevelData (v : ufoVariable) : bool :=
  let groupName := group v in
  (groupName =? "GeoVaLs")%string || (groupName =? "ObsDiag")%string
  || (groupName =? "ObsBiasTerm")%string.

(** [std::string::length] as an [int]. *)
Definition slen (s : string) : Z := Z.of_nat (String.length s).

Definition endl : string := String "010" EmptyString.

Definition not_present (name : string) : string :=
  name +:+ " not present in filter data" +:+ endl.

(** ** Stream formatting *)

(** [std::string(n, c)]. *)
Fixpoint fill (n : nat) (c : ascii) : string :=
  match n with
  | O => EmptyString
  | S n' => String c (fill n' c)
  end.

(** [os << std::right << std::setw(w) << s]: [s] padded on the left with
    blanks up to [w] characters; a longer [s] is not cut. *)
Definition setw (w : Z) (s : string) : string :=
  fill (Z.to_nat w - String.length s) " " +:+ s.

(** ** Element types, columns and the backing store *)

(** [ioda::ObsDtype]; [None] stands for every enumerator that the
    [switch] of [getAllData] does not list. *)
Module ObsDtype.
Inductive t : Type := Integer | Float | String | DateTime | Bool | None.
End ObsDtype.

(** The instances of the template parameter [VariableType];
    [bool] has overloads of its own. *)
Inductive vtype : Type := TInt | TFloat | TString | TDateTime.

(** What a collective call gathers. *)
Inductive site : Type :=
| GatherColumn (key : string)   (* a column of getData / getMultiLevelData *)
| GatherApply                    (* globalApply *)
| GatherIndex.                   (* globalIndex *)

Inductive event : Type :=
| Emit (text : string)           (* os_ << text *)
| Collective (s : site).         (* obsdb_.distribution()->allGatherv(...) *)

Definition is_collective (e : event) : bool :=
  match e with Collective _ => true | Emit _ => false end.

(** [Parameters_] of the filter (the options that the code reads). *)
Record Parameters_ : Type := {
  variables : list VariablePrintParameters;
  locmin : Z;
  locmax : Z;
  columnWidth : Z;
  maxTextWidth : Z;
  printRank0 : bool;
  scientificNotation : bool;
  floatPrecision : Z;
  skipDerived : bool;
  message : option string;
  summary : bool
}.

Section PrintFilterData.

(** [float] and [util::DateTime], their rendering by [operator<<], their
    [==] and the sentinels [util::missingValue<T>()] come from outside. *)
Context {float DateTime : Type}.
Context (show_float : bool -> Z -> float -> string).  (* scientific?, precision *)
Context (show_DateTime : Z -> DateTime -> string).    (* width *)
Context (float_eqb : float -> float -> bool).
Context (DateTime_eqb : DateTime -> DateTime -> bool).
Context (missing_int : Z) (missing_float : float)
        (missing_string : string) (missing_DateTime : DateTime).

Definition carrier (T : vtype) : Type :=
  match T with
  | TInt => Z
  | TFloat => float
  | TString => string
  | TDateTime => DateTime
  end.

(** The variant stored in [filterData_]. *)
Inductive column : Type :=
| IntColumn (v : list Z)
| FloatColumn (v : list float)
| StringColumn (v : list string)
| DateTimeColumn (v : list DateTime).

Definition to_column (T : vtype) : list (carrier T) -> column :=
  match T with
  | TInt => IntColumn
  | TFloat => FloatColumn
  | TString => StringColumn
  | TDateTime => DateTimeColumn
  end.

(** [boost::get<std::vector<T>>(c)]. *)
Definition boost_get (T : vtype) (c : column) : result (list (carrier T)) :=
  match T, c with
  | TInt, IntColumn v => Ok v
  | TFloat, FloatColumn v => Ok v
  | TString, StringColumn v => Ok v
  | TDateTime, DateTimeColumn v => Ok v
  | _, _ => Raise BadGet
  end.

Definition missingValue (T : vtype) : carrier T :=
  match T with
  | TInt => missing_int
  | TFloat => missing_float
  | TString => missing_string
  | TDateTime => missing_DateTime
  end.

(** [value == util::missingValue<T>()]. *)
Definition is_missing (T : vtype) : carrier T -> bool :=
  match T with
  | TInt => fun v => v =? missing_int
  | TFloat => fun v => float_eqb v missing_float
  | TString => fun v => (v =? missing_string)%string
  | TDateTime => fun v => DateTime_eqb v missing_DateTime
  end.

(** [os_ << std::right << std::setw(w) << (sci ? std::scientific : std::fixed)
    << std::setprecision(prec) << value]. *)
Definition put (T : vtype) (w : Z) (sci : bool) (prec : Z) : carrier T -> string :=
  match T with
  | TInt => fun v => setw w (pretty v)
  | TFloat => fun v => setw w (show_float sci prec v)
  | TString => fun v => setw w v
  | TDateTime => fun v => show_DateTime w v
  end.

(** What one worker sees of [data_] (ObsFilterData) and [obsdb_]
    (ObsSpace).  [get_db] answers [None] where the call throws.
    [allGatherv] is the result of the collective on this worker; it
    depends on what the other workers hand in. *)
Record ObsStore : Type := {
  has : ufoVariable -> bool;
  dtype : ufoVariable -> ObsDtype.t;
  nlevs : ufoVariable -> Z;
  data_get : forall T, ufoVariable -> bool -> list (carrier T);
  data_get_bool : ufoVariable -> bool -> list bool;
  data_get_level : ufoVariable -> Z -> list float;
  get_db : forall T, string -> string -> bool -> option (list (carrier T));
  get_db_bool : string -> string -> bool -> option (list bool);
  summary_text : string;                    (* os_ << data_ *)
  where_apply : list bool;                  (* processWhere(...) *)
  index : list Z;                           (* obsdb_.index() *)
  globalNumLocs : nat;
  rank : nat;                               (* obsdb_.comm().rank() *)
  allGatherv : forall T, site -> list (carrier T) -> list (carrier T)
}.

(** ** The monad of the filter: cache, output and exceptions *)

Record outcome (A : Type) : Type := Outcome {
  out_events : list event;
  out_cache : gmap string column;
  out_value : result A
}.

Arguments Outcome {A} _ _ _.
Arguments out_events {A} _.
Arguments out_cache {A} _.
Arguments out_value {A} _.

Definition M (A : Type) : Type := gmap string column -> outcome A.

Definition M_ret {A : Type} (a : A) : M A := fun c => Outcome [] c (Ok a).

Definition M_bind {A B : Type} (k : A -> M B) (m : M A) : M B := fun c =>
  let o := m c in
  match out_value o with
  | Ok a =>
      let o' := k a (out_cache o) in
      Outcome (out_events o ++ out_events o') (out_cache o') (out_value o')
  | Raise e => Outcome (out_events o) (out_cache o) (Raise e)
  end.

#[global] Instance M_mret : MRet M := @M_ret.
#[global] Instance M_mbind : MBind M := @M_bind.

Definition emit (text : string) : M unit := fun c => Outcome [Emit text] c (Ok tt).
Definition lift {A : Type} (r : result A) : M A := fun c => Outcome [] c r.
Definition cache_get : M (gmap string column) := fun c => Outcome [] c (Ok c).
Definition cache_insert (key : string) (col : column) : M unit :=
  fun c => Outcome [] (<[key := col]> c) (Ok tt).

Fixpoint for_each {A : Type} (l : list A) (body : A -> M unit) : M unit :=
  match l with
  | [] => mret tt
  | x :: l' => body x ;; for_each l' body
  end.

(** The collective calls of a run, in order. *)
Definition collectives {A : Type} (o : outcome A) : list event :=
  filter (fun e => is_collective e = true) (out_events o).

Context (store : ObsStore) (parameters_ : Parameters_).

Definition gather (T : vtype) (s : site) (local : list (carrier T))
  : M (list (carrier T)) :=
  fun c => Outcome [Collective s] c (Ok (allGatherv store T s local)).

(** ** Collective Column Gatherer (lines 42-120) *)

(** One turn of the loop over [ich] of [getData<VariableType>]
    (lines 57-68): [continue] in the handler ends the turn. *)
Definition getData_channel (T : vtype) (v : ufoVariable) (ich : Z) : M unit :=
  let variableWithChannel := variable v ich in
  match get_db store T (group v) variableWithChannel (skipDerived parameters_) with
  | None => emit (not_present (getVariableNameWithChannel v ich))
  | Some local =>
      globalVariableData ← gather T (GatherColumn (getVariableNameWithChannel v ich)) local;
      cache_insert (getVariableNameWithChannel v ich) (to_column T globalVariableData)
  end.

Definition getData (T : vtype) (v : ufoVariable) : M unit :=
  if (length (channels v) =? 0)%nat then
    let local := data_get store T v (skipDerived parameters_) in
    globalVariableData ← gather T (GatherColumn (getVariableNameWithChannel v 0)) local;
    cache_insert (getVariableNameWithChannel v 0) (to_column T globalVariableData)
  else
    for_each (iota (size v)) (getData_channel T v).

(** Conversion to [int] from [bool]. *)
Definition bools_to_ints (l : list bool) : list Z :=
  map (fun b : bool => if b then 1 else 0) l.

Definition getData_bool_channel (v : ufoVariable) (ich : Z) : M unit :=
  let variableWithChannel := variable v ich in
  match get_db_bool store (group v) variableWithChannel (skipDerived parameters_) with
  | None => emit (not_present (getVariableNameWithChannel v ich))
  | Some local =>
      globalVariableData ←
        gather TInt (GatherColumn (getVariableNameWithChannel v ich)) (bools_to_ints local);
      cache_insert (getVariableNameWithChannel v ich) (IntColumn globalVariableData)
  end.

Definition getData_bool (v : ufoVariable) : M unit :=
  if (length (channels v) =? 0)%nat then
    let local := data_get_bool store v (skipDerived parameters_) in
    globalVariableData ←
      gather TInt (GatherColumn (getVariableNameWithChannel v 0)) (bools_to_ints local);
    cache_insert (getVariableNameWithChannel v 0) (IntColumn globalVariableData)
  else
    for_each (iota (size v)) (getData_bool_channel v).

Definition getMultiLevelData (v : ufoVariable) (lvls : list Z) : M unit :=
  for_each lvls (fun level =>
    let MultiLevelVariableName := getVariableNameAtLevel (fullName v) level in
    if (level <? 0) || (level >=? nlevs store v) then
      emit (not_present MultiLevelVariableName)
    else
      let variableData := data_get_level store v level in
      globalVariableData ← gather TFloat (GatherColumn MultiLevelVariableName) variableData;
      cache_insert MultiLevelVariableName (FloatColumn globalVariableData)).

(** ** Field Selector & Cache (lines 163-197) *)

Definition getAllData : M unit :=
  for_each (variables parameters_) (fun variableParams =>
    let v := pvariable variableParams in
    if has store v then
      match dtype store v with
      | ObsDtype.Integer => getData TInt v
      | ObsDtype.Float =>
          if isMultiLevelData v then getMultiLevelData v (levels variableParams)
          else getData TFloat v
      | ObsDtype.String => getData TString v
      | ObsDtype.DateTime => getData TDateTime v
      | ObsDtype.Bool => getData_bool v
      | ObsDtype.None => lift (Raise (BadParameter "Invalid variable type for printing"))
      end
    else emit (not_present (fullName v))).

(** ** Longest Display Key (lines 199-232) *)

Definition longer (name : string) (maxVariableNameLength : Z) : Z :=
  if slen name >? maxVariableNameLength then slen name else maxVariableNameLength.

Definition getMaxVariableNameLength (filterData : gmap string column) : Z :=
  foldl (fun m variableParams =>
    let v := pvariable variableParams in
    if isMultiLevelData v then
      foldl (fun m level =>
        let MultiLevelVariableName := getVariableNameAtLevel (fullName v) level in
        match filterData !! MultiLevelVariableName with
        | None => m
        | Some _ => longer MultiLevelVariableName m
        end) m (levels variableParams)
    else if (length (channels v) =? 0)%nat then longer (fullName v) m
    else foldl (fun m ich => longer (getVariableNameWithChannel v ich) m) m (iota (size v)))
  (slen "Location") (variables parameters_).

(** ** Table Renderer: one cell (lines 122-142) *)

(** [filterData_[varname]] on an absent key would create an entry whose
    alternative is fixed in the header; every caller tests [find] first,
    and the absent key is given the outcome of a failed [boost::get]. *)
Definition cache_at (varname : string) : M column :=
  filterData ← cache_get;
  match filterData !! varname with
  | Some col => mret col
  | None => lift (Raise BadGet)
  end.

Definition printVariable (T : vtype) (varname : string) (loc : Z) : M unit :=
  col ← cache_at varname;
  vec ← lift (boost_get T col);
  value ← lift (vat vec loc);
  if is_missing T value then
    emit (setw (columnWidth parameters_) "missing")
  else
    emit (put T (columnWidth parameters_) (scientificNotation parameters_)
            (floatPrecision parameters_) value).

Definition printVariable_bool (varname : string) (loc : Z) : M unit :=
  col ← cache_at varname;
  vec ← lift (boost_get TInt col);
  value ← lift (vat vec loc);
  emit (setw (columnWidth parameters_) (pretty value)).

(** ** Table Renderer: one page (lines 329-394) *)

Definition print_cell (v : ufoVariable) (varname : string) (idx : Z) : M unit :=
  match dtype store v with
  | ObsDtype.Integer => printVariable TInt varname idx
  | ObsDtype.Float => printVariable TFloat varname idx
  | ObsDtype.String => printVariable TString varname idx
  | ObsDtype.DateTime => printVariable TDateTime varname idx
  | ObsDtype.Bool => printVariable_bool varname idx
  | ObsDtype.None => mret tt
  end ;;
  emit " | ".

Definition print_page (maxVariableNameLength : Z) (locGroup idxGroup : list Z) : M unit :=
  (* Table header. *)
  emit (setw maxVariableNameLength "Location" +:+ " | ") ;;
  for_each locGroup (fun loc =>
    emit (setw (columnWidth parameters_) (pretty loc) +:+ " | ")) ;;
  emit endl ;;
  (* Division bar below header. *)
  emit (fill (Z.to_nat maxVariableNameLength) "-" +:+ "-+-") ;;
  for_each locGroup (fun _ =>
    emit (fill (Z.to_nat (columnWidth parameters_)) "-" +:+ "-+-")) ;;
  emit endl ;;
  (* Each variable in turn. *)
  for_each (variables parameters_) (fun variableParams =>
    let v := pvariable variableParams in
    if negb (has store v) then mret tt
    else if isMultiLevelData v then
      for_each (levels variableParams) (fun level =>
        let MultiLevelVariableName := getVariableNameAtLevel (fullName v) level in
        filterData ← cache_get;
        match filterData !! MultiLevelVariableName with
        | None => mret tt
        | Some _ =>
            emit (setw maxVariableNameLength MultiLevelVariableName +:+ " | ") ;;
            for_each idxGroup (fun idx =>
              printVariable TFloat MultiLevelVariableName idx ;; emit " | ") ;;
            emit endl
        end)
    else
      for_each (iota (size v)) (fun ich =>
        let varname := getVariableNameWithChannel v ich in
        filterData ← cache_get;
        match filterData !! varname with
        | None => mret tt
        | Some _ =>
            emit (setw maxVariableNameLength varname +:+ " | ") ;;
            for_each idxGroup (print_cell v varname) ;;
            emit endl
        end)) ;;
  emit endl.

(** ** printAllData (lines 234-395) *)

Definition printAllData : M unit :=
  filterData ← cache_get;
  let maxVariableNameLength := getMaxVariableNameLength filterData in
  let nlocs := globalNumLocs store in
  let lmin := effective_locmin nlocs (locmin parameters_) in
  let lmax := effective_locmax nlocs (locmax parameters_) in
  lift (check_range lmin lmax) ;;
  perRow ← lift (nlocsPerRow (maxTextWidth parameters_) maxVariableNameLength
                   (columnWidth parameters_));
  (* Locations at which the filter is applied. *)
  let apply := bools_to_ints (where_apply store) in
  let apply :=
    if printRank0 parameters_ && negb (rank store =? 0)%nat
    then map (fun _ => 0) apply else apply in
  globalApply ← gather TInt GatherApply apply;
  globalIndex ← gather TInt GatherIndex (index store);
  sel ← lift (select_rows nlocs lmin lmax globalApply globalIndex);
  rows ← lift (paginate perRow sel.1 sel.2);
  for_each (zip rows.1 rows.2) (fun page =>
    print_page maxVariableNameLength page.1 page.2).

(** ** doFilter (lines 397-418)

    The trace and debug channels are not [os_] and are left out. *)

(** The welcome message, the optional message and the optional summary
    (lines 401-412). *)
Definition welcome : M unit :=
  emit endl ;;
  emit ("############################" +:+ endl) ;;
  emit ("### Printing filter data ###" +:+ endl) ;;
  emit ("############################" +:+ endl) ;;
  emit (endl +:+ endl) ;;
  match message parameters_ with
  | Some text => emit (text +:+ endl +:+ endl)
  | None => mret tt
  end ;;
  (if summary parameters_ then emit (summary_text store) else mret tt).

Definition doFilter : M unit :=
  welcome ;;
  getAllData ;;
  printAllData.

End PrintFilterData.

Arguments Outcome {float DateTime A} _ _ _.
Arguments out_events {float DateTime A} _.
Arguments out_cache {float DateTime A} _.
Arguments out_value {float DateTime A} _.

(** * ObsSfcCorrected: the surface-corrected observation operator

    [src/ufo/operators/sfccorrected/ObsSfcCorrected.cc], [simulateObs].
    [GeoVaLs], [ioda::ObsSpace] and the element type [float] come from
    outside, and so do the operators that [SurfaceOperatorFactory] creates:
    an operator is what its [simobs] does to the vector [hofx], which it
    receives by reference.  [ioda::ObsVector] is its flat vector of values
    with [nlocs()] and [nvars()]. *)

Module ObsSfcCorrected.

Section Operator.

Context {GeoVaLs ObsSpace float : Type}.
Context (zero : float).    (* the value of a value-initialised [float] *)

Definition SurfaceOperator : Type := GeoVaLs -> ObsSpace -> list float -> list float.

Record ObsVector : Type := {
  values : list float;
  nlocs : nat;
  nvars : nat
}.

(** [v[idx] = x]. *)
Definition vset (v : list float) (idx : Z) (x : float) : result (list float) :=
  if (idx <? 0) || (Z.of_nat (length v) <=? idx)
  then Raise (OutOfBounds idx (length v))
  else Ok (<[Z.to_nat idx := x]> v).

(** The loop over [jloc] (lines 78-81). *)
Fixpoint populate (nvars : nat) (jvar : Z) (hofx : list float) (jlocs : list nat)
    (ovec : list float) : result (list float) :=
  match jlocs with
  | [] => Ok ovec
  | jloc :: rest =>
      let idx := Z.of_nat jloc * Z.of_nat nvars + jvar in
      x ← vat hofx (Z.of_nat jloc);
      ovec' ← vset ovec idx x;
      populate nvars jvar hofx rest ovec'
  end.

(** The loop over [jvar] (lines 73-82). *)
Fixpoint simulate_loop (operators_ : list SurfaceOperator) (odb_ : ObsSpace)
    (gv : GeoVaLs) (indices : list Z) (hofx : list float) (ovec : ObsVector)
  : result ObsVector :=
  match indices with
  | [] => Ok ovec
  | jvar :: rest =>
      oper ← vat operators_ jvar;
      let hofx' := oper gv odb_ hofx in
      vals ← populate (nvars ovec) jvar hofx' (seq 0 (nlocs ovec)) (values ovec);
      simulate_loop operators_ odb_ gv rest hofx'
        {| values := vals; nlocs := nlocs ovec; nvars := nvars ovec |}
  end.

Definition simulateObs (operators_ : list SurfaceOperator) (operatorVarIndices_ : list Z)
    (odb_ : ObsSpace) (gv : GeoVaLs) (ovec : ObsVector) : result ObsVector :=
  let hofx := replicate (nlocs ovec) zero in
  simulate_loop operators_ odb_ gv operatorVarIndices_ hofx ovec.

(** The vector [hofx] after the operators of the indices [js] have run on
    it in turn. *)
Definition hofx_after (operators_ : list SurfaceOperator) (odb_ : ObsSpace)
    (gv : GeoVaLs) (hofx : list float) (js : list Z) : list float :=
  foldl (fun h j =>
           match operators_ !! Z.to_nat j with
           | Some oper => oper gv odb_ h
           | None => h
           end) hofx js.

(** The place of location [jloc], variable [j] in the flat vector. *)
Definition place (nvars : nat) (jloc : nat) (j : Z) : nat :=
  Z.to_nat (Z.of_nat jloc * Z.of_nat nvars + j).

End Operator.

End ObsSfcCorrected.

(** * Vocabulary of the properties *)

(** The order a stable sort by [globalIndex] produces: by index value, and
    by position among equal index values. *)
Definition stable_before (globalIndex : list Z) (i j : Z) : Prop :=
  vget globalIndex i < vget globalIndex j
  \/ (vget globalIndex i = vget globalIndex j /\ i < j).

(** The rows built after [count] selected locations: all rows but the
    last are full, the last one holds what remains. *)
Definition rows_ok (perRow count : Z) (rows : list (list Z)) : Prop :=
  Forall (fun r => Z.of_nat (length r) = perRow) (removelast rows)
  /\ match last rows with
     | None => count = 0
     | Some r =>
         0 < count
         /\ Z.of_nat (length r)
            = (if Z.rem count perRow =? 0 then perRow else Z.rem count perRow)
     end.

(** Every page but the last has exactly [perRow] entries, and every page
    has between 1 and [perRow]. *)
Definition page_sizes (perRow : Z) (pages : list (list Z)) : Prop :=
  Forall (fun page => Z.of_nat (length page) = perRow) (removelast pages)
  /\ Forall (fun page => 1 <= Z.of_nat (length page) <= perRow) pages.

(** The exception of the range check. *)
Definition range_error : exn :=
  BadValue "Minimum location cannot be larger than maximum location".

(** A loop over channels in which [fetched ich] is the column gathered
    for channel [ich], if its fetch succeeds: the event of a turn and its
    effect on the cache. *)
Definition channel_event {float DateTime : Type} (v : ufoVariable)
    (fetched : Z -> option (@column float DateTime)) (ich : Z) : event :=
  match fetched ich with
  | None => Emit (not_present (getVariableNameWithChannel v ich))
  | Some _ => Collective (GatherColumn (getVariableNameWithChannel v ich))
  end.

Definition channel_store {float DateTime : Type} (v : ufoVariable)
    (fetched : Z -> option (@column float DateTime))
    (c : gmap string (@column float DateTime)) (ich : Z)
  : gmap string (@column float DateTime) :=
  match fetched ich with
  | None => c
  | Some col => <[getVariableNameWithChannel v ich := col]> c
  end.

(** The column that [getData<T>] caches for channel [ich], if the fetch
    succeeds, and the same for the overload for [bool]. *)
Definition fetched_channel {float DateTime : Type} (store : @ObsStore float DateTime)
    (parameters_ : Parameters_) (T : vtype) (v : ufoVariable) (ich : Z)
  : option (@column float DateTime) :=
  (fun local =>
     to_column T (allGatherv store T
                    (GatherColumn (getVariableNameWithChannel v ich)) local))
    <$> get_db store T (group v) (variable v ich) (skipDerived parameters_).

Definition fetched_bool_channel {float DateTime : Type}
    (store : @ObsStore float DateTime) (parameters_ : Parameters_)
    (v : ufoVariable) (ich : Z) : option (@column float DateTime) :=
  (fun local =>
     IntColumn (allGatherv store TInt
                  (GatherColumn (getVariableNameWithChannel v ich))
                  (bools_to_ints local)))
    <$> get_db_bool store (group v) (variable v ich) (skipDerived parameters_).

(** What skipping channel [ich] of the field [v] means for a run [o] of the
    loop that starts from the cache [c]: the turn of [ich] only writes the
    note naming its Display Key and leaves the cache as it is; the loop ends
    normally; its output holds the note; the key of [ich] gets no cache
    entry unless another channel with the same key is fetched; and every
    channel whose fetch succeeds ([fetch_ok]) is gathered and cached. *)
Definition channel_skipped {float DateTime : Type} (v : ufoVariable) (ich : Z)
    (c : gmap string (@column float DateTime)) (fetch_ok : Z -> Prop)
    (turn : Z -> @M float DateTime unit) (o : @outcome float DateTime unit) : Prop :=
  let key := getVariableNameWithChannel v in
  (forall c', turn ich c' = Outcome [Emit (not_present (key ich))] c' (Ok tt))
  /\ out_value o = Ok tt
  /\ Emit (not_present (key ich)) ∈ out_events o
  /\ ((forall j, j ∈ iota (size v) -> key j = key ich -> ~ fetch_ok j) ->
      out_cache o !! key ich = c !! key ich)
  /\ (forall j, j ∈ iota (size v) -> fetch_ok j ->
        Collective (GatherColumn (key j)) ∈ out_events o
        /\ is_Some (out_cache o !! key j)).

(** The test of the selection loop on a row number [loc]. *)
Definition selected (sortIdx globalApply : list Z) (lmin lmax : Z) (loc : Z) : bool :=
  (loc >=? lmin) && (loc <? lmax)
  && negb (vget globalApply (vget sortIdx loc) =? 0).

(** A computation that only reads the cache and writes to [os_]. *)
Definition quiet {float DateTime A : Type} (m : @M float DateTime A) : Prop :=
  forall c, out_cache (m c) = c
            /\ Forall (fun e => is_collective e = false) (out_events (m c)).

(** What a run [o] from the cache [c] has done to the cache when all it
    does is gather columns: no key is lost, every gathered column is cached
    under its Display Key, every new key was gathered, and neither the mask
    nor the index is gathered. *)
Definition column_gathers {float DateTime A : Type}
    (c : gmap string (@column float DateTime)) (o : @outcome float DateTime A) : Prop :=
  (forall k, is_Some (c !! k) -> is_Some (out_cache o !! k))
  /\ (forall k, Collective (GatherColumn k) ∈ out_events o -> is_Some (out_cache o !! k))
  /\ (forall k, is_Some (out_cache o !! k) ->
        is_Some (c !! k) \/ Collective (GatherColumn k) ∈ out_events o)
  /\ Forall (fun e => e <> Collective GatherApply /\ e <> Collective GatherIndex)
       (out_events o).

(** The fields that [getAllData] can dispatch: absent from the store, or
    of one of the five element types. *)
Definition dispatchable {float DateTime : Type} (store : @ObsStore float DateTime)
    (variableParams : VariablePrintParameters) : bool :=
  negb (has store (pvariable variableParams))
  || match dtype store (pvariable variableParams) with
     | ObsDtype.None => false
     | _ => true
     end.

Definition invalid_type : exn := BadParameter "Invalid variable type for printing".

(** The levels that [getMultiLevelData] fetches, its events and its effect
    on the cache, level by level. *)
Definition level_in_range {float DateTime : Type} (store : @ObsStore float DateTime)
    (v : ufoVariable) (level : Z) : bool :=
  negb ((level <? 0) || (level >=? nlevs store v)).

Definition level_column {float DateTime : Type} (store : @ObsStore float DateTime)
    (v : ufoVariable) (level : Z) : @column float DateTime :=
  FloatColumn
    (allGatherv store TFloat
       (GatherColumn (getVariableNameAtLevel (fullName v) level))
       (data_get_level store v level)).

Definition level_event {float DateTime : Type} (store : @ObsStore float DateTime)
    (v : ufoVariable) (level : Z) : event :=
  if level_in_range store v level
  then Collective (GatherColumn (getVariableNameAtLevel (fullName v) level))
  else Emit (not_present (getVariableNameAtLevel (fullName v) level)).


(** * Concrete runs

    Stores and configurations on which the filter is evaluated below.  The
    element types [float] and [util::DateTime] are instantiated by [Z]; the
    stores hold integer columns only. *)

Module Scenario.

Definition show_Z (w : Z) (x : Z) : string := setw w (pretty x).

(** A field of group [g] called [name], with the given channels. *)
Definition field (g name : string) (chans : list Z) : ufoVariable :=
  {| group := g;
     fullName := g +:+ "/" +:+ name;
     channels := chans;
     size := match chans with [] => 1%nat | _ => length chans end;
     variable := fun jj =>
       match chans with
       | [] => name
       | _ => name +:+ "_" +:+ pretty (nth (Z.to_nat jj) chans 0)
       end |}.

(** Worker 0 of two.  [known] lists the full names of the fields for
    which [has] answers yes (channels play no part in it); [present] lists
    the integer variables that the store holds, by group and name, each
    with its local column; the other worker hands in [others_index],
    [others_apply] and, for a column, the values [others_column]. *)
Definition worker0 (known : list string) (present : list (string * string * list Z))
    (local_index : list Z) (local_apply : list bool) (total : nat)
    (others_index others_apply others_column : list Z) : @ObsStore Z Z :=
  let find g name :=
    snd <$> list_find (fun e => e.1 = (g, name)) present in
  {| has := fun v => bool_decide (fullName v ∈ known);
     dtype := fun _ => ObsDtype.Integer;
     nlevs := fun _ => 0;
     data_get := fun T v _ =>
       match T return list (carrier T) with
       | TInt => default [] (snd <$> find (group v) (variable v 0))
       | _ => []
       end;
     data_get_bool := fun _ _ => [];
     data_get_level := fun _ _ => [];
     get_db := fun T g name _ =>
       match T return option (list (carrier T)) with
       | TInt => snd <$> find g name
       | _ => None
       end;
     get_db_bool := fun _ _ _ => None;
     summary_text := "";
     where_apply := local_apply;
     index := local_index;
     globalNumLocs := total;
     rank := 0;
     allGatherv := fun T s =>
       match T return list (carrier T) -> list (carrier T) with
       | TInt => fun l =>
           match s with
           | GatherIndex => l ++ others_index
           | GatherApply => l ++ others_apply
           | GatherColumn _ => l ++ others_column
           end
       | _ => fun l => l
       end |}.

Definition config (vars : list ufoVariable) (lmin lmax : Z) : Parameters_ :=
  {| variables := (fun v => {| pvariable := v; levels := [] |}) <$> vars;
     locmin := lmin;
     locmax := lmax;
     columnWidth := 10;
     maxTextWidth := 120;
     printRank0 := false;
     scientificNotation := false;
     floatPrecision := 3;
     skipDerived := false;
     message := None;
     summary := false |}.

Definition run {A : Type} (store : @ObsStore Z Z) (parameters_ : Parameters_)
    (f : (bool -> Z -> Z -> string) -> (Z -> Z -> string) ->
         (Z -> Z -> bool) -> (Z -> Z -> bool) -> Z -> Z -> string -> Z ->
         @ObsStore Z Z -> Parameters_ -> @M Z Z A) : @outcome Z Z A :=
  f (fun _ _ => pretty) show_Z Z.eqb Z.eqb (-999) (-999) "MISSING" (-999)
    store parameters_ ∅.

(** The example of the comments of [printAllData]: six locations, 0 and 5
    outside the time window, [index()] is [2, 4] here and [1, 3] on the
    other worker. *)
Definition six_locations : @ObsStore Z Z :=
  worker0 [] [] [2; 4] [true; true] 4 [1; 3] [1; 1] [].

(** A brightness temperature with channels 1 and 2. *)
Definition brightness : ufoVariable := field "ObsValue" "brightnessTemperature" [1; 2].

Definition both_channels : @ObsStore Z Z :=
  worker0 ["ObsValue/brightnessTemperature"]
          [("ObsValue", "brightnessTemperature_1", [271; 272]);
           ("ObsValue", "brightnessTemperature_2", [281; 282])]
    [0; 1] [true; true] 4 [2; 3] [1; 1] [273; 274].

Definition second_channel_only : @ObsStore Z Z :=
  worker0 ["ObsValue/brightnessTemperature"]
          [("ObsValue", "brightnessTemperature_2", [281; 282])]
    [0; 1] [true; true] 4 [2; 3] [1; 1] [273; 274].

Definition airTemperature : ufoVariable := field "ObsValue" "airTemperature" [0; 1; 2].

Definition pressure : ufoVariable := field "MetaData" "pressure" [].

Definition with_pressure : @ObsStore Z Z :=
  worker0 ["MetaData/pressure"] [("MetaData", "pressure", [1000; 900])]
    [0; 1] [true; true] 4 [2; 3] [1; 1] [800; 700].

End Scenario.

(** Further stores and operators for the runs below. *)

Module MoreScenarios.

(** The store [s] with every field of element type [t]. *)
Definition retyped (t : ObsDtype.t) (s : @ObsStore Z Z) : @ObsStore Z Z :=
  {| has := has s;
     dtype := fun _ => t;
     nlevs := nlevs s;
     data_get := data_get s;
     data_get_bool := data_get_bool s;
     data_get_level := data_get_level s;
     get_db := get_db s;
     get_db_bool := get_db_bool s;
     summary_text := summary_text s;
     where_apply := where_apply s;
     index := index s;
     globalNumLocs := globalNumLocs s;
     rank := rank s;
     allGatherv := allGatherv s |}.

(** An operator that sets every entry of [hofx] to [x]. *)
Definition constant (x : Z) : @ObsSfcCorrected.SurfaceOperator unit unit Z :=
  fun _ _ hofx => map (fun _ => x) hofx.

(** Two locations and two variables. *)
Definition two_by_two : @ObsSfcCorrected.ObsVector Z :=
  {| ObsSfcCorrected.values := [1; 2; 3; 4];
     ObsSfcCorrected.nlocs := 2;
     ObsSfcCorrected.nvars := 2 |}.

End MoreScenarios.

(** * Properties *)

(** ** The stable sort *)

Lemma stable_insert_Permutation less x l :
  Permutation (stable_insert less x l) (x :: l).
Proof.
  induction l as [|y l IH]; simpl; [done|].
  destruct (less y x); [|done].
  rewrite IH. apply perm_swap.
Qed.

Lemma stable_sort_Permutation less l : Permutation (stable_sort less l) l.
Proof.
  induction l as [|x l IH]; simpl; [done|].
  rewrite stable_insert_Permutation. by constructor.
Qed.

Lemma stable_before_antisym g i j :
  stable_before g i j -> stable_before g j i -> i = j.
Proof. unfold stable_before. lia. Qed.

Lemma stable_insert_sorted g x l :
  StronglySorted (stable_before g) l ->
  Forall (fun y => x < y) l ->
  StronglySorted (stable_before g) (stable_insert (index_less g) x l).
Proof.
  induction l as [|y l IH]; simpl; intros Hs Hx.
  - repeat constructor.
  - apply StronglySorted_inv in Hs as [Hs Hy].
    apply Forall_cons in Hx as [Hxy Hx].
    unfold index_less at 1.
    destruct (Z.ltb_spec (vget g y) (vget g x)) as [Hlt|Hge].
    + constructor; [by apply IH|].
      rewrite stable_insert_Permutation.
      constructor; [by left|done].
    + constructor; [by constructor|].
      constructor; [unfold stable_before; lia|].
      rewrite Forall_forall in Hy, Hx |- *.
      intros z Hz. specialize (Hy z Hz). specialize (Hx z Hz).
      unfold stable_before in *. lia.
Qed.

Lemma stable_sort_sorted g l :
  StronglySorted Z.lt l ->
  StronglySorted (stable_before g) (stable_sort (index_less g) l).
Proof.
  induction l as [|x l IH]; simpl; intros Hs; [constructor|].
  apply StronglySorted_inv in Hs as [Hs Hx].
  apply stable_insert_sorted; [by apply IH|].
  by rewrite stable_sort_Permutation.
Qed.

(** ** Positions *)

Lemma iota_sorted_from a n : StronglySorted Z.lt (map Z.of_nat (seq a n)).
Proof.
  revert a. induction n as [|n IH]; intros a; simpl; constructor; [apply IH|].
  rewrite Forall_forall. intros z Hz.
  apply list_elem_of_In, in_map_iff in Hz as (k & <- & Hk).
  apply in_seq in Hk. lia.
Qed.

Lemma iota_sorted n : StronglySorted Z.lt (iota n).
Proof. apply iota_sorted_from. Qed.

Lemma elem_of_iota n i : i ∈ iota n <-> 0 <= i < Z.of_nat n.
Proof.
  unfold iota. rewrite list_elem_of_In, in_map_iff. split.
  - intros (k & <- & Hk). apply in_seq in Hk. lia.
  - intros Hi. exists (Z.to_nat i). split; [lia|]. apply in_seq. lia.
Qed.

Lemma iota_length n : length (iota n) = n.
Proof. unfold iota. by rewrite length_map, length_seq. Qed.

Lemma NoDup_iota n : NoDup (iota n).
Proof.
  unfold iota. apply NoDup_fmap_2; [intros ???; lia|].
  apply NoDup_ListNoDup, seq_NoDup.
Qed.

Lemma map_vget_iota g : map (vget g) (iota (length g)) = g.
Proof.
  unfold iota. rewrite map_map. apply list_eq. intros k.
  rewrite list_lookup_fmap.
  destruct (decide (k < length g)%nat) as [Hk|Hk].
  - rewrite lookup_seq_lt by done. simpl.
    unfold vget. rewrite Nat2Z.id, nth_lookup.
    by destruct (lookup_lt_is_Some_2 g k Hk) as [x ->].
  - rewrite lookup_seq_ge by lia. simpl.
    symmetry. apply lookup_ge_None_2. lia.
Qed.

Lemma sortIndices_Permutation n g : Permutation (sortIndices n g) (iota n).
Proof. apply stable_sort_Permutation. Qed.

(** Every position the sort compares or returns lies in [0 .. nlocs-1]. *)
Lemma sortIndices_in_range n g i :
  i ∈ sortIndices n g -> 0 <= i < Z.of_nat n.
Proof. rewrite sortIndices_Permutation. apply elem_of_iota. Qed.

Lemma sortIndices_length n g : length (sortIndices n g) = n.
Proof. by rewrite sortIndices_Permutation, iota_length. Qed.

Lemma vat_in_range {A} (v : list A) i :
  0 <= i < Z.of_nat (length v) -> exists x, vat v i = Ok x.
Proof.
  intros Hi. unfold vat.
  destruct (Z.ltb_spec i 0); [lia|].
  destruct (lookup_lt_is_Some_2 v (Z.to_nat i)) as [x ->]; [lia|eauto].
Qed.

Lemma vat_out_of_range {A} (v : list A) i :
  Z.of_nat (length v) <= i -> vat v i = Raise (OutOfBounds i (length v)).
Proof.
  intros Hi. unfold vat.
  destruct (Z.ltb_spec i 0); [done|].
  by rewrite lookup_ge_None_2 by lia.
Qed.

Lemma vget_inj g i j :
  NoDup g -> 0 <= i < Z.of_nat (length g) -> 0 <= j < Z.of_nat (length g) ->
  vget g i = vget g j -> i = j.
Proof.
  intros Hnd Hi Hj Heq. unfold vget in Heq.
  apply NoDup_ListNoDup in Hnd.
  apply (proj1 (NoDup_nth g 0) Hnd) in Heq; lia.
Qed.

Lemma StronglySorted_map_elem_of {A B} (R1 : A -> A -> Prop) (R2 : B -> B -> Prop)
    (f : A -> B) (l : list A) :
  (forall x y, x ∈ l -> y ∈ l -> R1 x y -> R2 (f x) (f y)) ->
  StronglySorted R1 l -> StronglySorted R2 (map f l).
Proof.
  intros Hf Hs. induction Hs as [|x l Hs IH Hx]; simpl; constructor.
  - apply IH. intros y z Hy Hz. apply Hf; by constructor.
  - rewrite Forall_forall in Hx. rewrite Forall_forall. intros z Hz.
    apply list_elem_of_In, in_map_iff in Hz as (y & <- & Hy).
    apply list_elem_of_In in Hy.
    apply Hf; [by constructor|by constructor|by apply Hx].
Qed.

Lemma StronglySorted_lt_NoDup (l : list Z) : StronglySorted Z.lt l -> NoDup l.
Proof.
  induction 1 as [|x l Hs IH Hx]; constructor; [|done].
  rewrite Forall_forall in Hx. intros Hin. specialize (Hx x Hin). lia.
Qed.

(** ** Global Index Reconciler *)

Lemma sortIndices_stable n g : StronglySorted (stable_before g) (sortIndices n g).
Proof. apply stable_sort_sorted, iota_sorted. Qed.

Lemma sortIndices_unique n g p :
  Permutation p (iota n) -> StronglySorted (stable_before g) p ->
  p = sortIndices n g.
Proof.
  intros Hp Hs.
  apply (StronglySorted_unique_strong (stable_before g)); [|done| |].
  - intros i j _ _. apply stable_before_antisym.
  - apply sortIndices_stable.
  - by rewrite Hp, sortIndices_Permutation.
Qed.

Lemma permutedGlobalIndex_Permutation g :
  Permutation (permutedGlobalIndex g (sortIndices (length g) g)) g.
Proof.
  unfold permutedGlobalIndex.
  rewrite sortIndices_Permutation. by rewrite map_vget_iota.
Qed.

Lemma permutedGlobalIndex_ascending g :
  NoDup g ->
  StronglySorted Z.lt (permutedGlobalIndex g (sortIndices (length g) g)).
Proof.
  intros Hnd. unfold permutedGlobalIndex.
  apply (StronglySorted_map_elem_of (stable_before g)); [|apply sortIndices_stable].
  intros i j Hi Hj [Hlt|[Heq Hij]]; [done|].
  apply sortIndices_in_range in Hi, Hj.
  apply vget_inj in Heq; [lia|done..].
Qed.

(** C3: for a concatenated Local Row Index with pairwise distinct entries,
    [sortIndices] is a permutation of the positions [0 .. N-1]; applying it
    to the index gives a strictly ascending sequence without duplicates
    that rearranges the index; and it is the stable order of the positions
    by index value, which determines it uniquely. *)
Theorem reconciler_stable_ascending (nlocs : nat) (globalIndex : list Z)
    (Hlen : nlocs = length globalIndex) (Hdistinct : NoDup globalIndex) :
  let sortIdx := sortIndices nlocs globalIndex in
  let permuted := permutedGlobalIndex globalIndex sortIdx in
  Permutation sortIdx (iota nlocs)
  /\ NoDup sortIdx
  /\ Permutation permuted globalIndex
  /\ StronglySorted Z.lt permuted
  /\ NoDup permuted
  /\ StronglySorted (stable_before globalIndex) sortIdx
  /\ (forall p, Permutation p (iota nlocs) ->
                StronglySorted (stable_before globalIndex) p -> p = sortIdx).
Proof.
  subst nlocs. simpl.
  pose proof (permutedGlobalIndex_ascending globalIndex Hdistinct) as Hasc.
  split_and!.
  - apply sortIndices_Permutation.
  - rewrite sortIndices_Permutation. apply NoDup_iota.
  - apply permutedGlobalIndex_Permutation.
  - done.
  - by apply StronglySorted_lt_NoDup.
  - apply sortIndices_stable.
  - apply sortIndices_unique.
Qed.

Lemma reconciler_stable_ascending_witness :
  let sortIdx := sortIndices 4 [2; 4; 1; 3] in
  let permuted := permutedGlobalIndex [2; 4; 1; 3] sortIdx in
  Permutation sortIdx (iota 4)
  /\ NoDup sortIdx
  /\ Permutation permuted [2; 4; 1; 3]
  /\ StronglySorted Z.lt permuted
  /\ NoDup permuted
  /\ StronglySorted (stable_before [2; 4; 1; 3]) sortIdx
  /\ (forall p, Permutation p (iota 4) ->
                StronglySorted (stable_before [2; 4; 1; 3]) p -> p = sortIdx).
Proof.
  apply (reconciler_stable_ascending 4 [2; 4; 1; 3]).
  - reflexivity.
  - apply (bool_decide_unpack _). vm_compute. exact I.
Defined.

(** ** Row selection *)

(** C1: on the example of the source comments (gathered index
    [2, 4, 1, 3], window [0, 6), every location applied) the sort
    permutation is [2, 0, 3, 1] and the permuted index [1, 2, 3, 4], but the
    selection loop reads [sortIndices[loc]] with the original row number
    [loc]: for [loc = 4] that is past the end of the four positions.  With
    the window cut to [0, 4) the rows 1, 2, 3 are selected with the
    positions [0, 3, 1], not [2, 0, 3]. *)
Theorem worked_example_selection :
  sortIndices 4 [2; 4; 1; 3] = [2; 0; 3; 1]
  /\ permutedGlobalIndex [2; 4; 1; 3] [2; 0; 3; 1] = [1; 2; 3; 4]
  /\ effective_locmin 4 0 = 0 /\ effective_locmax 4 6 = 6
  /\ select_rows 4 0 6 [1; 1; 1; 1] [2; 4; 1; 3] = Raise (OutOfBounds 4 4)
  /\ select_rows 4 0 4 [1; 1; 1; 1] [2; 4; 1; 3] = Ok ([1; 2; 3], [0; 3; 1])
  /\ Scenario.run Scenario.six_locations (Scenario.config [] 0 6) printAllData
     = Outcome [Collective GatherApply; Collective GatherIndex] ∅
         (Raise (OutOfBounds 4 4)).
Proof. split_and!; vm_compute; reflexivity. Qed.

(** C2: a gathered index of one row, the original row 1 (row 0 was
    excluded upstream), with its mask bit set and the window [0, 2):
    [sortIndices] has the single position 0 and the loop reads
    [sortIndices[1]]. *)
Theorem selection_index_past_the_end :
  NoDup [1] /\ Forall (fun loc => 0 <= loc) [1]
  /\ length [1] = 1%nat /\ length (sortIndices 1 [1]) = 1%nat
  /\ permutedGlobalIndex [1] (sortIndices 1 [1]) = [1]
  /\ vat (sortIndices 1 [1]) 1 = Raise (OutOfBounds 1 1)
  /\ select_rows 1 (effective_locmin 1 0) (effective_locmax 1 2) [1] [1]
     = Raise (OutOfBounds 1 1).
Proof.
  split_and!; try (vm_compute; reflexivity).
  - apply NoDup_singleton.
  - repeat constructor. lia.
Qed.

(** Without gaps, that is when the gathered index holds every row number
    [0 .. N-1] once, the permuted index is [0 .. N-1] itself. *)
Lemma permutedGlobalIndex_without_gaps g :
  Permutation g (iota (length g)) ->
  permutedGlobalIndex g (sortIndices (length g) g) = iota (length g).
Proof.
  intros Hperm.
  assert (NoDup g) as Hnd by (rewrite Hperm; apply NoDup_iota).
  apply (StronglySorted_unique_strong Z.lt).
  - intros; lia.
  - by apply permutedGlobalIndex_ascending.
  - apply iota_sorted.
  - by rewrite permutedGlobalIndex_Permutation.
Qed.

Lemma vat_vget (v : list Z) i x : vat v i = Ok x -> vget v i = x.
Proof.
  unfold vat, vget. destruct (Z.ltb_spec i 0); [done|].
  rewrite nth_lookup. destruct (v !! Z.to_nat i); [|done].
  by intros [= ->].
Qed.

Lemma vat_elem_of {A} (v : list A) i x : vat v i = Ok x -> x ∈ v.
Proof.
  unfold vat. destruct (Z.ltb_spec i 0); [done|].
  destruct (v !! Z.to_nat i) eqn:Hl; [|done].
  intros [= ->]. by eapply list_elem_of_lookup_2.
Qed.

Lemma vget_permuted g s i :
  0 <= i < Z.of_nat (length s) ->
  vget (permutedGlobalIndex g s) i = vget g (vget s i).
Proof.
  intros Hi. unfold vget, permutedGlobalIndex.
  rewrite (nth_indep _ 0 (vget g 0)) by (rewrite length_map; lia).
  apply map_nth.
Qed.

Lemma vget_iota n i : 0 <= i < Z.of_nat n -> vget (iota n) i = i.
Proof.
  intros Hi. unfold vget, iota.
  rewrite (nth_indep _ 0 (Z.of_nat 0)) by (rewrite length_map, length_seq; lia).
  rewrite map_nth, seq_nth by lia. lia.
Qed.

(** What the selection loop needs of a row number [loc]: a position
    [pos = sortIndices[loc]] inside the vectors, which holds the row. *)
Lemma select_loop_in_bounds sortIdx globalApply lmin lmax (row_at : Z -> Z -> Prop)
    permuted locs idxs :
  (forall loc, loc ∈ permuted ->
     exists pos app, vat sortIdx loc = Ok pos /\ vat globalApply pos = Ok app
                     /\ row_at loc pos) ->
  Forall2 row_at locs idxs ->
  exists locs' idxs',
    select_loop sortIdx globalApply lmin lmax permuted locs idxs = Ok (locs', idxs')
    /\ Forall2 row_at locs' idxs'.
Proof.
  revert locs idxs. induction permuted as [|loc rest IH]; intros locs idxs Hin Hacc.
  - by exists locs, idxs.
  - cbn [select_loop].
    assert (forall l, l ∈ rest ->
              exists pos app, vat sortIdx l = Ok pos /\ vat globalApply pos = Ok app
                              /\ row_at l pos) as Hrest
      by (intros l Hl; apply Hin; by constructor).
    destruct ((loc >=? lmin) && (loc <? lmax)); [|by apply IH].
    destruct (Hin loc ltac:(by constructor)) as (pos & app & -> & Happ & Hrow).
    cbn [mbind result_bind rbind]. rewrite Happ. cbn [mbind result_bind rbind].
    destruct (app =? 0); [by apply IH|].
    apply IH; [done|]. apply Forall2_app; [done|by constructor].
Qed.

(** Without gaps the selection stays inside the vectors, and each selected
    row number comes with the position that holds it in the gathered
    columns. *)
Lemma select_rows_without_gaps (nlocs : nat) (lmin lmax : Z)
    (globalApply globalIndex : list Z) :
  nlocs = length globalIndex -> length globalApply = nlocs ->
  Permutation globalIndex (iota nlocs) ->
  exists locsToPrint indicesToPrint,
    select_rows nlocs lmin lmax globalApply globalIndex
      = Ok (locsToPrint, indicesToPrint)
    /\ Forall2 (fun loc pos => 0 <= pos < Z.of_nat nlocs /\ vget globalIndex pos = loc)
         locsToPrint indicesToPrint.
Proof.
  intros -> Happly Hperm. unfold select_rows.
  apply select_loop_in_bounds; [|constructor].
  rewrite (permutedGlobalIndex_without_gaps _ Hperm).
  intros loc Hloc. apply elem_of_iota in Hloc.
  destruct (vat_in_range (sortIndices (length globalIndex) globalIndex) loc)
    as [pos Hpos]; [by rewrite sortIndices_length|].
  pose proof (sortIndices_in_range _ _ _ (vat_elem_of _ _ _ Hpos)) as Hrange.
  destruct (vat_in_range globalApply pos) as [app Happ]; [by rewrite Happly|].
  exists pos, app. split; [done|]. split; [done|]. split; [lia|].
  apply vat_vget in Hpos. rewrite <- Hpos.
  rewrite <- vget_permuted by (rewrite sortIndices_length; lia).
  rewrite (permutedGlobalIndex_without_gaps _ Hperm). by apply vget_iota.
Qed.

Lemma select_loop_empty_window sortIdx globalApply lmin lmax permuted locs idxs :
  lmax <= lmin ->
  select_loop sortIdx globalApply lmin lmax permuted locs idxs = Ok (locs, idxs).
Proof.
  intros Hw. induction permuted as [|loc rest IH]; simpl; [done|].
  destruct (Z.geb_spec loc lmin), (Z.ltb_spec loc lmax); simpl; try lia; done.
Qed.

(** C5, as the code has it: with both bounds 0 the upper bound stands for
    "no upper bound" and the rows are selected; with both bounds at or above
    the number of rows the lower one is moved down to the last row. *)
Lemma equal_bounds_zero_selects_rows :
  select_rows 1 (effective_locmin 1 0) (effective_locmax 1 0) [1] [0]
    = Ok ([0], [0])
  /\ paginate 1 [0] [0] = Ok ([[0]], [[0]])
  /\ select_rows 3 (effective_locmin 3 5) (effective_locmax 3 5) [1; 1; 1] [0; 1; 2]
     = Ok ([2], [2])
  /\ ~ (select_rows 1 (effective_locmin 1 0) (effective_locmax 1 0) [1] [0]
        = Ok ([], [])).
Proof. split_and!; vm_compute; [reflexivity..|discriminate]. Qed.

(** C5, amended: when the two bounds are equal, not 0 and below the number
    of rows, the range check passes, no row is selected and there is no
    page. *)
Theorem equal_bounds_select_nothing (nlocs : nat) (bound perRow : Z)
    (globalApply globalIndex : list Z)
    (Hnonzero : bound <> 0) (Hbelow : bound < Z.of_nat nlocs) :
  let lmin := effective_locmin nlocs bound in
  let lmax := effective_locmax nlocs bound in
  check_range lmin lmax = Ok tt
  /\ select_rows nlocs lmin lmax globalApply globalIndex = Ok ([], [])
  /\ paginate perRow [] [] = Ok ([], []).
Proof.
  unfold effective_locmin, effective_locmax.
  destruct (Z.geb_spec bound (Z.of_nat nlocs)); [lia|].
  destruct (Z.eqb_spec bound 0); [lia|]. simpl.
  split_and!.
  - unfold check_range. destruct (Z.gtb_spec bound bound); [lia|done].
  - unfold select_rows. by apply select_loop_empty_window.
  - done.
Qed.

Lemma equal_bounds_select_nothing_witness :
  check_range (effective_locmin 4 2) (effective_locmax 4 2) = Ok tt
  /\ select_rows 4 (effective_locmin 4 2) (effective_locmax 4 2)
       [1; 1; 1; 1] [2; 0; 3; 1] = Ok ([], [])
  /\ paginate 3 [] [] = Ok ([], []).
Proof.
  apply (equal_bounds_select_nothing 4 2 3 [1; 1; 1; 1] [2; 0; 3; 1]); lia.
Defined.

(** ** Display Keys *)

(** C10: the Display Key of "temperature" at level 3 and, for a field of
    group "ObsValue" whose variable 2 is "airTemperature_2", the Display
    Key of its channel 2. *)
Theorem display_key_examples (v : ufoVariable)
    (Hgroup : group v = "ObsValue")
    (Hvariable : variable v 2 = "airTemperature_2") :
  getVariableNameAtLevel "temperature" 3 = "temperature (level 3)"
  /\ getVariableNameWithChannel v 2 = "ObsValue/airTemperature_2".
Proof.
  split; [reflexivity|].
  unfold getVariableNameWithChannel. by rewrite Hgroup, Hvariable.
Qed.

Lemma display_key_examples_witness :
  getVariableNameAtLevel "temperature" 3 = "temperature (level 3)"
  /\ getVariableNameWithChannel Scenario.airTemperature 2
     = "ObsValue/airTemperature_2".
Proof.
  apply (display_key_examples Scenario.airTemperature); reflexivity.
Defined.

(** ** Row Paginator *)

(** Truncating and flooring division differ only where the quotient is
    negative, and there [std::max(_, 1)] answers 1 for both. *)
Lemma max_quot_floor a b :
  b <> 0 -> Z.max (Z.quot a b) 1 = Z.max 1 (a / b).
Proof.
  intros Hb.
  pose proof (Z.quot_rem' a b) as Hq.
  pose proof (Z.div_mod a b Hb) as Hd.
  destruct (Z_lt_le_dec 0 b) as [Hpos|Hneg].
  - pose proof (Z.mod_pos_bound a b Hpos).
    destruct (Z_lt_le_dec a 0) as [Ha|Ha].
    + pose proof (Z.rem_bound_pos_neg a b Hpos ltac:(lia)). nia.
    + pose proof (Z.rem_bound_pos a b Ha Hpos). nia.
  - assert (b < 0) as Hb' by lia.
    pose proof (Z.mod_neg_bound a b Hb').
    destruct (Z_lt_le_dec 0 a) as [Ha|Ha].
    + pose proof (Z.rem_bound_neg_pos a b Hb' ltac:(lia)). nia.
    + pose proof (Z.rem_bound_neg_neg a b Hb' Ha). nia.
Qed.

Lemma rem_succ count perRow :
  0 <= count -> 1 <= perRow ->
  0 <= Z.rem count perRow < perRow
  /\ Z.rem (count + 1) perRow
     = (if Z.rem count perRow + 1 =? perRow then 0 else Z.rem count perRow + 1).
Proof.
  intros Hc Hp.
  rewrite !Z.rem_mod_nonneg by lia.
  pose proof (Z.mod_pos_bound count perRow ltac:(lia)) as Hm.
  split; [done|].
  pose proof (Z.div_mod count perRow ltac:(lia)) as Hd.
  destruct (Z.eqb_spec (count mod perRow + 1) perRow) as [Heq|Hne].
  - symmetry. apply (Z.mod_unique_pos _ _ (count / perRow + 1)); lia.
  - symmetry. apply (Z.mod_unique_pos _ _ (count / perRow)); lia.
Qed.

Lemma last_Some_removelast {A} (l : list A) r :
  last l = Some r -> l = removelast l ++ [r].
Proof.
  induction l as [|x l IH]; [done|].
  destruct l as [|y l]; simpl in *; [congruence|].
  intros Hl. f_equal. by apply IH.
Qed.

Lemma removelast_snoc {A} (l : list A) x : removelast (l ++ [x]) = l.
Proof. apply removelast_last. Qed.

Lemma rows_ok_nil perRow : rows_ok perRow 0 [].
Proof. by split. Qed.

Lemma rows_ok_push perRow count rows x :
  1 <= perRow -> 0 <= count -> rows_ok perRow count rows ->
  exists rows',
    back_push_back (if Z.rem count perRow =? 0 then rows ++ [[]] else rows) x
      = Ok rows'
    /\ rows_ok perRow (count + 1) rows'
    /\ concat rows' = concat rows ++ [x].
Proof.
  intros Hp Hc [Hfull Hlast].
  destruct (rem_succ count perRow Hc Hp) as [Hm Hstep].
  destruct (Z.eqb_spec (Z.rem count perRow) 0) as [Hz|Hnz].
  - exists (rows ++ [[x]]). unfold back_push_back.
    rewrite last_snoc, removelast_snoc. split_and!; [done| |].
    + split.
      * rewrite removelast_snoc.
        destruct (last rows) as [r|] eqn:Hr.
        -- rewrite (last_Some_removelast _ _ Hr).
           apply Forall_app. split; [done|].
           constructor; [|done]. destruct Hlast as [_ ->].
           done.
        -- apply last_None in Hr. by subst rows.
      * rewrite last_snoc. split; [lia|]. rewrite Hstep, Hz.
        change (Z.of_nat (length [x])) with 1.
        destruct (Z.eqb_spec (0 + 1) perRow) as [<-|Hne]; [done|].
        destruct (Z.eqb_spec (0 + 1) 0); [lia|done].
    + rewrite concat_app. cbn [concat]. by rewrite app_nil_r.
  - destruct (last rows) as [r|] eqn:Hr.
    2:{ subst count. by rewrite Z.rem_0_l in Hnz by lia. }
    destruct Hlast as [Hpos Hr_len].
    exists (removelast rows ++ [r ++ [x]]). unfold back_push_back.
    rewrite Hr. split_and!; [done| |].
    + split.
      * by rewrite removelast_snoc.
      * rewrite last_snoc. split; [lia|].
        rewrite length_app, Hstep. cbn [length].
        destruct (Z.eqb_spec (Z.rem count perRow + 1) perRow) as [Heq|Hne].
        -- change (0 =? 0) with true. cbv iota. lia.
        -- destruct (Z.eqb_spec (Z.rem count perRow + 1) 0); lia.
    + rewrite (last_Some_removelast _ _ Hr) at 2.
      rewrite !concat_app. cbn [concat]. by rewrite !app_nil_r, app_assoc.
Qed.

Lemma paginate_loop_spec perRow sel count rl ri :
  1 <= perRow -> 0 <= count ->
  rows_ok perRow count rl -> rows_ok perRow count ri ->
  exists rl' ri',
    paginate_loop perRow sel count rl ri = Ok (rl', ri')
    /\ rows_ok perRow (count + Z.of_nat (length sel)) rl'
    /\ rows_ok perRow (count + Z.of_nat (length sel)) ri'
    /\ concat rl' = concat rl ++ sel.*1
    /\ concat ri' = concat ri ++ sel.*2.
Proof.
  intros Hp. revert count rl ri.
  induction sel as [|[loc idx] sel IH]; intros count rl ri Hc Hl Hi.
  - exists rl, ri. simpl. rewrite Z.add_0_r, !app_nil_r. done.
  - destruct (rows_ok_push perRow count rl loc Hp Hc Hl) as (rl1 & Hrl & Hl1 & Hcl).
    destruct (rows_ok_push perRow count ri idx Hp Hc Hi) as (ri1 & Hri & Hi1 & Hci).
    destruct (IH (count + 1) rl1 ri1 ltac:(lia) Hl1 Hi1)
      as (rl' & ri' & Hrun & Hl' & Hi' & Hcl' & Hci').
    exists rl', ri'. split_and!.
    + cbn [paginate_loop]. rewrite Hrl. cbn [mbind result_bind rbind].
      rewrite Hri. cbn [mbind result_bind rbind]. exact Hrun.
    + replace (count + Z.of_nat (length ((loc, idx) :: sel)))
        with (count + 1 + Z.of_nat (length sel)) by (simpl; lia). done.
    + replace (count + Z.of_nat (length ((loc, idx) :: sel)))
        with (count + 1 + Z.of_nat (length sel)) by (simpl; lia). done.
    + rewrite Hcl', Hcl. simpl. by rewrite <- app_assoc.
    + rewrite Hci', Hci. simpl. by rewrite <- app_assoc.
Qed.

Lemma rows_ok_page_sizes perRow count rows :
  1 <= perRow -> 0 <= count -> rows_ok perRow count rows -> page_sizes perRow rows.
Proof.
  intros Hp Hc [Hfull Hlast]. split; [done|].
  destruct (last rows) as [r|] eqn:Hr.
  - rewrite (last_Some_removelast _ _ Hr). apply Forall_app. split.
    + eapply Forall_impl; [exact Hfull|]. simpl. intros; lia.
    + constructor; [|done]. destruct Hlast as [_ ->].
      destruct (rem_succ count perRow Hc Hp) as [Hm _].
      destruct (Z.eqb_spec (Z.rem count perRow) 0); lia.
  - apply last_None in Hr. by subst rows.
Qed.

(** C8: the rows selected for display are cut, in order, into pages of
    exactly max(1, floor((maxTextWidth - longest) / (columnWidth + 3)))
    entries, the last page possibly shorter; every page has between 1 and
    that many entries.  The pages of positions are cut the same way. *)
Theorem paginator_page_sizes (maxWidth longest colWidth : Z)
    (locsToPrint indicesToPrint : list Z)
    (Hwidth : colWidth + 3 <> 0)
    (Hlength : length locsToPrint = length indicesToPrint) :
  let bound := Z.max 1 ((maxWidth - longest) / (colWidth + 3)) in
  nlocsPerRow maxWidth longest colWidth = Ok bound
  /\ exists rowOfLocsToPrint rowOfIndicesToPrint,
       paginate bound locsToPrint indicesToPrint
         = Ok (rowOfLocsToPrint, rowOfIndicesToPrint)
       /\ concat rowOfLocsToPrint = locsToPrint
       /\ concat rowOfIndicesToPrint = indicesToPrint
       /\ page_sizes bound rowOfLocsToPrint
       /\ page_sizes bound rowOfIndicesToPrint.
Proof.
  intros bound. split.
  - unfold nlocsPerRow. destruct (Z.eqb_spec (colWidth + 3) 0); [done|].
    f_equal. by apply max_quot_floor.
  - assert (1 <= bound) as Hb by (unfold bound; lia).
    destruct (paginate_loop_spec bound (zip locsToPrint indicesToPrint) 0 [] []
                Hb ltac:(lia) (rows_ok_nil _) (rows_ok_nil _))
      as (rl & ri & Hrun & Hl & Hi & Hcl & Hci).
    exists rl, ri. split_and!.
    + exact Hrun.
    + rewrite Hcl. simpl. apply fst_zip. lia.
    + rewrite Hci. simpl. apply snd_zip. lia.
    + eapply rows_ok_page_sizes; [done| |exact Hl]. lia.
    + eapply rows_ok_page_sizes; [done| |exact Hi]. lia.
Qed.

Lemma paginator_page_sizes_witness :
  nlocsPerRow 50 8 10 = Ok (Z.max 1 ((50 - 8) / (10 + 3)))
  /\ exists rowOfLocsToPrint rowOfIndicesToPrint,
       paginate (Z.max 1 ((50 - 8) / (10 + 3))) [1; 2; 3; 4] [2; 0; 3; 1]
         = Ok (rowOfLocsToPrint, rowOfIndicesToPrint)
       /\ concat rowOfLocsToPrint = [1; 2; 3; 4]
       /\ concat rowOfIndicesToPrint = [2; 0; 3; 1]
       /\ page_sizes (Z.max 1 ((50 - 8) / (10 + 3))) rowOfLocsToPrint
       /\ page_sizes (Z.max 1 ((50 - 8) / (10 + 3))) rowOfIndicesToPrint.
Proof.
  apply (paginator_page_sizes 50 8 10 [1; 2; 3; 4] [2; 0; 3; 1]).
  - lia.
  - reflexivity.
Defined.

(** ** Runs of the monad *)

Section Runs.

Context {float DateTime : Type}.
Context (show_float : bool -> Z -> float -> string).
Context (show_DateTime : Z -> DateTime -> string).
Context (float_eqb : float -> float -> bool).
Context (DateTime_eqb : DateTime -> DateTime -> bool).
Context (missing_int : Z) (missing_float : float)
        (missing_string : string) (missing_DateTime : DateTime).
Context (store : @ObsStore float DateTime) (parameters_ : Parameters_).

Abbreviation cache := (gmap string (@column float DateTime)).
Abbreviation key := getVariableNameWithChannel.
Abbreviation elt := (@carrier float DateTime).

Lemma bind_run {A B} (m : M A) (k : A -> M B) (c : cache) :
  (m ≫= k) c =
    match out_value (m c) with
    | Ok a =>
        Outcome (out_events (m c) ++ out_events (k a (out_cache (m c))))
          (out_cache (k a (out_cache (m c))))
          (out_value (k a (out_cache (m c))))
    | Raise e => Outcome (out_events (m c)) (out_cache (m c)) (Raise e)
    end.
Proof. reflexivity. Qed.

Lemma bind_run_ok {A B} (m : M A) (k : A -> M B) (c c' : cache) ev a :
  m c = Outcome ev c' (Ok a) ->
  (m ≫= k) c =
    Outcome (ev ++ out_events (k a c')) (out_cache (k a c')) (out_value (k a c')).
Proof. intros Hm. rewrite bind_run, Hm. reflexivity. Qed.

Lemma bind_run_raise {A B} (m : M A) (k : A -> M B) (c c' : cache) ev e :
  m c = Outcome ev c' (Raise e) ->
  (m ≫= k) c = Outcome ev c' (Raise e).
Proof. intros Hm. rewrite bind_run, Hm. reflexivity. Qed.

Lemma outcome_eta {A} (o : @outcome float DateTime A) :
  Outcome (out_events o) (out_cache o) (out_value o) = o.
Proof. by destruct o. Qed.

(** *** The loop over the channels

    [fetched ich] is the column gathered for channel [ich], if its fetch
    succeeds; [body] is a turn of the loop. *)

Section ChannelLoop.

Context (v : ufoVariable).
Context (fetched : Z -> option (@column float DateTime)).
Context (body : Z -> @M float DateTime unit).
Context (Hbody : forall ich c,
  body ich c =
    match fetched ich with
    | None => Outcome [Emit (not_present (key v ich))] c (Ok tt)
    | Some col =>
        Outcome [Collective (GatherColumn (key v ich))] (<[key v ich := col]> c) (Ok tt)
    end).

Lemma channel_loop_run (l : list Z) (c : cache) :
  for_each l body c
  = Outcome (map (channel_event v fetched) l) (foldl (channel_store v fetched) c l) (Ok tt).
Proof.
  revert c. induction l as [|ich l IH]; intros c; [done|].
  cbn [for_each map foldl]. rewrite bind_run, Hbody.
  replace (channel_event v fetched ich :: map (channel_event v fetched) l)
    with ([channel_event v fetched ich] ++ map (channel_event v fetched) l) by done.
  unfold channel_event at 1, channel_store at 2.
  destruct (fetched ich) as [col|]; cbn [out_value out_cache out_events];
    by rewrite IH.
Qed.

Lemma channel_loop_collectives (l : list Z) (c : cache) :
  collectives (for_each l body c)
  = map (fun ich => Collective (GatherColumn (key v ich)))
      (filter (fun ich => is_Some (fetched ich)) l).
Proof.
  rewrite channel_loop_run. unfold collectives. cbn [out_events].
  induction l as [|ich l IH]; [done|].
  cbn [map]. destruct (fetched ich) as [col|] eqn:Hf.
  - rewrite (filter_cons_True _ (channel_event v fetched ich))
      by (unfold channel_event; by rewrite Hf).
    rewrite (filter_cons_True (fun ich => is_Some (fetched ich)))
      by (rewrite Hf; eauto).
    cbn [map]. rewrite IH. unfold channel_event. by rewrite Hf.
  - rewrite (filter_cons_False _ (channel_event v fetched ich))
      by (unfold channel_event; by rewrite Hf).
    rewrite (filter_cons_False (fun ich => is_Some (fetched ich)))
      by (rewrite Hf; by intros [??]).
    done.
Qed.

Lemma channel_loop_untouched (l : list Z) (c : cache) (k : string) :
  (forall ich, ich ∈ l -> key v ich = k -> fetched ich = None) ->
  foldl (channel_store v fetched) c l !! k = c !! k.
Proof.
  revert c. induction l as [|ich l IH]; intros c Hl; [done|].
  cbn [foldl]. rewrite IH by (intros j Hj; apply Hl; by constructor).
  unfold channel_store. destruct (fetched ich) as [col|] eqn:Hf; [|done].
  apply lookup_insert_ne. intros Hk.
  specialize (Hl ich ltac:(by constructor) Hk). congruence.
Qed.

Lemma channel_loop_stored (l : list Z) (c : cache) (ich : Z) :
  ich ∈ l -> is_Some (fetched ich) ->
  is_Some (foldl (channel_store v fetched) c l !! key v ich).
Proof.
  intros Hin Hf.
  assert (forall l c, is_Some (c !! key v ich) ->
                      is_Some (foldl (channel_store v fetched) c l !! key v ich)) as Hkeep.
  { clear. intros l. induction l as [|j l IH]; intros c Hc; [done|].
    cbn [foldl]. apply IH. unfold channel_store.
    destruct (fetched j) as [col|]; [|done].
    destruct (decide (key v j = key v ich)) as [->|Hne].
    - rewrite lookup_insert_eq. eauto.
    - by rewrite lookup_insert_ne. }
  revert c. induction l as [|j l IH]; intros c; [by apply elem_of_nil in Hin|].
  cbn [foldl]. apply elem_of_cons in Hin as [->|Hin].
  - apply Hkeep. unfold channel_store.
    destruct Hf as [col ->]. rewrite lookup_insert_eq. eauto.
  - by apply IH.
Qed.

Lemma channel_loop_skipped (ich : Z) (c : cache) (fetch_ok : Z -> Prop) :
  (forall j, fetch_ok j <-> is_Some (fetched j)) ->
  ich ∈ iota (size v) ->
  fetched ich = None ->
  channel_skipped v ich c fetch_ok body (for_each (iota (size v)) body c).
Proof.
  intros Hok Hich Hmissing. unfold channel_skipped.
  rewrite channel_loop_run. cbn [out_value out_events out_cache].
  split_and!.
  - intros c'. by rewrite Hbody, Hmissing.
  - done.
  - apply list_elem_of_In, in_map_iff. exists ich.
    split; [unfold channel_event; by rewrite Hmissing|by apply list_elem_of_In].
  - intros Hothers. apply channel_loop_untouched.
    intros j Hj Hk. specialize (Hothers j Hj Hk). rewrite Hok in Hothers.
    destruct (fetched j); [exfalso; eauto|done].
  - intros j Hj Hf. apply Hok in Hf. split.
    + apply list_elem_of_In, in_map_iff. exists j.
      split; [|by apply list_elem_of_In].
      unfold channel_event. by destruct Hf as [col ->].
    + by apply channel_loop_stored.
Qed.

End ChannelLoop.

(** *** Collective Column Gatherer *)

Lemma getData_channel_run T v ich (c : cache) :
  getData_channel store parameters_ T v ich c =
    match fetched_channel store parameters_ T v ich with
    | None => Outcome [Emit (not_present (key v ich))] c (Ok tt)
    | Some col =>
        Outcome [Collective (GatherColumn (key v ich))] (<[key v ich := col]> c) (Ok tt)
    end.
Proof.
  unfold getData_channel, fetched_channel.
  by destruct (get_db store T (group v) (variable v ich) (skipDerived parameters_)).
Qed.

Lemma getData_bool_channel_run v ich (c : cache) :
  getData_bool_channel store parameters_ v ich c =
    match fetched_bool_channel store parameters_ v ich with
    | None => Outcome [Emit (not_present (key v ich))] c (Ok tt)
    | Some col =>
        Outcome [Collective (GatherColumn (key v ich))] (<[key v ich := col]> c) (Ok tt)
    end.
Proof.
  unfold getData_bool_channel, fetched_bool_channel.
  by destruct (get_db_bool store (group v) (variable v ich) (skipDerived parameters_)).
Qed.

Lemma getData_channels T v (c : cache) :
  channels v <> [] ->
  getData store parameters_ T v c
  = for_each (iota (size v)) (getData_channel store parameters_ T v) c.
Proof. intros Hch. unfold getData. by destruct (channels v). Qed.

Lemma getData_bool_channels v (c : cache) :
  channels v <> [] ->
  getData_bool store parameters_ v c
  = for_each (iota (size v)) (getData_bool_channel store parameters_ v) c.
Proof. intros Hch. unfold getData_bool. by destruct (channels v). Qed.

(** C7: when the fetch of channel [ich] of a field with channels fails,
    that turn of the loop only writes the note naming the channel's
    Display Key and leaves the cache as it is; the whole of [getData] ends
    normally, its output holds the note, the key gets no cache entry (none
    unless another channel with the same key is fetched), and every channel
    whose fetch succeeds is gathered and cached.  The same holds for the
    overload of [getData] for [bool]. *)
Theorem missing_channel_is_skipped (T : vtype) (v : ufoVariable) (ich : Z) (c : cache)
    (Hchannels : channels v <> [])
    (Hich : ich ∈ iota (size v)) :
  let fetch j := get_db store T (group v) (variable v j) (skipDerived parameters_) in
  let fetch_bool j :=
    get_db_bool store (group v) (variable v j) (skipDerived parameters_) in
  (fetch ich = None ->
   channel_skipped v ich c (fun j => is_Some (fetch j))
     (getData_channel store parameters_ T v) (getData store parameters_ T v c))
  /\ (fetch_bool ich = None ->
      channel_skipped v ich c (fun j => is_Some (fetch_bool j))
        (getData_bool_channel store parameters_ v)
        (getData_bool store parameters_ v c)).
Proof.
  intros fetch fetch_bool. split; intros Hmissing.
  - rewrite (getData_channels T v c Hchannels).
    apply (channel_loop_skipped v (fetched_channel store parameters_ T v) _
             (getData_channel_run T v)); [|done|].
    + intros j. unfold fetched_channel. symmetry. apply fmap_is_Some.
    + unfold fetched_channel. fold (fetch ich). by rewrite Hmissing.
  - rewrite (getData_bool_channels v c Hchannels).
    apply (channel_loop_skipped v (fetched_bool_channel store parameters_ v) _
             (getData_bool_channel_run v)); [|done|].
    + intros j. unfold fetched_bool_channel. symmetry. apply fmap_is_Some.
    + unfold fetched_bool_channel. fold (fetch_bool ich). by rewrite Hmissing.
Qed.

(** C6, amended: for a field with channels the collective calls of
    [getData] are, in channel order, one call for each channel whose fetch
    succeeds; a channel whose fetch fails has no call. *)
Theorem gather_calls_follow_fetches (T : vtype) (v : ufoVariable) (c : cache)
    (Hchannels : channels v <> []) :
  collectives (getData store parameters_ T v c)
  = map (fun ich => Collective (GatherColumn (key v ich)))
      (filter (fun ich => is_Some (get_db store T (group v) (variable v ich)
                                     (skipDerived parameters_)))
         (iota (size v)))
  /\ collectives (getData_bool store parameters_ v c)
     = map (fun ich => Collective (GatherColumn (key v ich)))
         (filter (fun ich => is_Some (get_db_bool store (group v) (variable v ich)
                                        (skipDerived parameters_)))
            (iota (size v))).
Proof.
  split.
  - rewrite (getData_channels T v c Hchannels).
    rewrite (channel_loop_collectives v (fetched_channel store parameters_ T v) _ (getData_channel_run T v)).
    f_equal. apply list_filter_iff. intros ich.
    unfold fetched_channel. apply fmap_is_Some.
  - rewrite (getData_bool_channels v c Hchannels).
    rewrite (channel_loop_collectives v (fetched_bool_channel store parameters_ v) _
               (getData_bool_channel_run v)).
    f_equal. apply list_filter_iff. intros ich.
    unfold fetched_bool_channel. apply fmap_is_Some.
Qed.

(** *** The range check *)

Lemma welcome_run (c : cache) :
  exists text,
    welcome store parameters_ c = Outcome text c (Ok tt)
    /\ Forall (fun e => is_collective e = false) text.
Proof.
  unfold welcome.
  destruct (message parameters_), (summary parameters_);
    eexists; (split; [reflexivity|]); repeat constructor.
Qed.

Lemma printAllData_range_error (c : cache) :
  effective_locmin (globalNumLocs store) (locmin parameters_)
    > effective_locmax (globalNumLocs store) (locmax parameters_) ->
  printAllData show_float show_DateTime float_eqb DateTime_eqb
      missing_int missing_float missing_string missing_DateTime
      store parameters_ c
  = Outcome [] c (Raise range_error).
Proof.
  intros Hrange. unfold printAllData.
  rewrite bind_run. cbn [cache_get out_value out_cache out_events app].
  erewrite bind_run_raise; [reflexivity|].
  unfold lift, check_range.
  destruct (Z.gtb_spec
              (effective_locmin (globalNumLocs store) (locmin parameters_))
              (effective_locmax (globalNumLocs store) (locmax parameters_)));
    [done|lia].
Qed.

(** C4, amended: when the bounds that the code compares (the maximum
    replaced by the number of rows when it is configured as 0, the minimum
    replaced by the number of rows minus one when it is not below the number
    of rows) have the minimum above the maximum, [printAllData] raises
    BadValue with no gather of its own and no output; [doFilter], which has
    then written the welcome text and run [getAllData] with all its gathers,
    ends with that exception and nothing after the events of
    [getAllData]. *)
Theorem range_error_after_column_gathers (c : cache)
    (Hrange : effective_locmin (globalNumLocs store) (locmin parameters_)
              > effective_locmax (globalNumLocs store) (locmax parameters_)) :
  let print := printAllData show_float show_DateTime float_eqb DateTime_eqb
                 missing_int missing_float missing_string missing_DateTime
                 store parameters_ in
  let filter := doFilter show_float show_DateTime float_eqb DateTime_eqb
                  missing_int missing_float missing_string missing_DateTime
                  store parameters_ in
  print c = Outcome [] c (Raise range_error)
  /\ Forall (fun e => is_collective e = false) (out_events (welcome store parameters_ c))
  /\ (out_value (getAllData store parameters_ c) = Ok tt ->
      out_value (filter c) = Raise range_error
      /\ out_events (filter c)
         = out_events (welcome store parameters_ c)
           ++ out_events (getAllData store parameters_ c)).
Proof.
  intros print filter.
  destruct (welcome_run c) as (text & Hw & Htext).
  split_and!.
  - by apply printAllData_range_error.
  - by rewrite Hw.
  - intros Hget. subst filter. unfold doFilter.
    rewrite (bind_run_ok _ _ c c text tt Hw), Hw.
    cbn [out_value out_events out_cache].
    rewrite bind_run, Hget.
    rewrite printAllData_range_error by done.
    cbn [out_value out_events out_cache]. by rewrite app_nil_r.
Qed.

(** With equal bounds, not 0 and below the number of rows, [printAllData]
    gathers the mask and the index and prints nothing. *)
Lemma printAllData_equal_bounds (c : cache) :
  locmin parameters_ = locmax parameters_ ->
  locmax parameters_ <> 0 ->
  locmin parameters_ < Z.of_nat (globalNumLocs store) ->
  columnWidth parameters_ + 3 <> 0 ->
  printAllData show_float show_DateTime float_eqb DateTime_eqb
      missing_int missing_float missing_string missing_DateTime
      store parameters_ c
  = Outcome [Collective GatherApply; Collective GatherIndex] c (Ok tt).
Proof.
  intros Heq Hnz Hlt Hw. unfold printAllData.
  rewrite bind_run. cbn [cache_get out_value out_cache out_events app].
  unfold effective_locmin, effective_locmax, nlocsPerRow.
  rewrite <- Heq in *.
  destruct (Z.geb_spec (locmin parameters_) (Z.of_nat (globalNumLocs store))); [lia|].
  destruct (Z.eqb_spec (locmin parameters_) 0); [lia|].
  destruct (Z.eqb_spec (columnWidth parameters_ + 3) 0); [lia|].
  unfold check_range.
  destruct (Z.gtb_spec (locmin parameters_) (locmin parameters_)); [lia|].
  erewrite bind_run_ok by reflexivity. cbn [app].
  erewrite bind_run_ok by reflexivity. cbn [app].
  erewrite bind_run_ok by reflexivity.
  erewrite bind_run_ok by reflexivity.
  erewrite bind_run_ok
    by (unfold lift, select_rows; rewrite select_loop_empty_window by lia;
        reflexivity).
  erewrite bind_run_ok by reflexivity.
  reflexivity.
Qed.

(** *** Table cells *)

Lemma boost_get_to_column T (vec : list (elt T)) :
  boost_get T (to_column T vec) = Ok vec.
Proof. by destruct T. Qed.

(** For the integers and the strings, [==] with the sentinel is equality
    with [missingValue]; for [float] and [util::DateTime] it is the [==] of
    the type. *)
Lemma is_missing_int_string (T : vtype) (value : elt T) :
  T = TInt \/ T = TString ->
  is_missing float_eqb DateTime_eqb missing_int missing_float missing_string
    missing_DateTime T value = true
  <-> value = missingValue missing_int missing_float missing_string
                missing_DateTime T.
Proof.
  intros [-> | ->]; cbn [is_missing missingValue].
  - apply Z.eqb_eq.
  - apply String.eqb_eq.
Qed.

Lemma string_length_app (s1 s2 : string) :
  String.length (s1 +:+ s2) = (String.length s1 + String.length s2)%nat.
Proof. induction s1 as [|a s1 IH]; simpl; [done|by rewrite IH]. Qed.

Lemma fill_length n a : String.length (fill n a) = n.
Proof. induction n as [|n IH]; simpl; [done|by rewrite IH]. Qed.

(** [setw] aligns to the right: blanks, then the text. *)
Lemma setw_length w text : slen (setw w text) = Z.max w (slen text).
Proof. unfold slen, setw. rewrite string_length_app, fill_length. lia. Qed.

Lemma bools_to_ints_values l : Forall (fun x => x = 0 \/ x = 1) (bools_to_ints l).
Proof.
  unfold bools_to_ints. rewrite Forall_forall. intros x Hx.
  apply list_elem_of_In, in_map_iff in Hx as ([|] & <- & _); auto.
Qed.

(** C9: a cell whose value is the missing sentinel of its type prints the
    text "missing" aligned to the right in the column width, whatever the
    precision and the notation; any other value prints by its type, a
    floating-point one in the configured notation at the configured
    precision; a boolean cell prints the integer that is stored (0 or 1
    where it comes from a boolean), the missing sentinel of the integers
    included. *)
Theorem cell_rendering (T : vtype) (varname : string) (loc : Z) (c : cache)
    (vec : list (elt T)) (value : elt T)
    (Hcolumn : c !! varname = Some (to_column T vec))
    (Hvalue : vat vec loc = Ok value) :
  let width := columnWidth parameters_ in
  let cell := printVariable show_float show_DateTime float_eqb DateTime_eqb
                missing_int missing_float missing_string missing_DateTime
                parameters_ T varname loc c in
  (is_missing float_eqb DateTime_eqb missing_int missing_float missing_string
     missing_DateTime T value = true ->
   cell = Outcome [Emit (setw width "missing")] c (Ok tt))
  /\ slen (setw width "missing") = Z.max width 7
  /\ (is_missing float_eqb DateTime_eqb missing_int missing_float missing_string
        missing_DateTime T value = false ->
      cell = Outcome [Emit (put show_float show_DateTime T width
                              (scientificNotation parameters_)
                              (floatPrecision parameters_) value)] c (Ok tt))
  /\ (forall x : float,
        put show_float show_DateTime TFloat width (scientificNotation parameters_)
          (floatPrecision parameters_) x
        = setw width (show_float (scientificNotation parameters_)
                        (floatPrecision parameters_) x))
  /\ (forall (ivec : list Z) (ivalue : Z),
        c !! varname = Some (IntColumn ivec) -> vat ivec loc = Ok ivalue ->
        printVariable_bool parameters_ varname loc c
        = Outcome [Emit (setw width (pretty ivalue))] c (Ok tt))
  /\ (forall l : list bool, Forall (fun x => x = 0 \/ x = 1) (bools_to_ints l)).
Proof.
  intros width cell.
  assert (cell =
    (if is_missing float_eqb DateTime_eqb missing_int missing_float missing_string
          missing_DateTime T value
     then Outcome [Emit (setw width "missing")] c (Ok tt)
     else Outcome [Emit (put show_float show_DateTime T width
                           (scientificNotation parameters_)
                           (floatPrecision parameters_) value)] c (Ok tt)))
    as Hcell.
  { subst cell. unfold printVariable.
    erewrite bind_run_ok;
      [|unfold cache_at; erewrite bind_run_ok by reflexivity;
        rewrite Hcolumn; apply outcome_eta].
    cbn [app].
    erewrite bind_run_ok
      by (unfold lift; rewrite boost_get_to_column; reflexivity).
    cbn [app].
    erewrite bind_run_ok by (unfold lift; rewrite Hvalue; reflexivity).
    cbn [app].
    by destruct (is_missing _ _ _ _ _ _ T value). }
  split_and!.
  - intros Hm. by rewrite Hcell, Hm.
  - apply setw_length.
  - intros Hm. by rewrite Hcell, Hm.
  - done.
  - intros ivec ivalue Hc Hv. unfold printVariable_bool.
    erewrite bind_run_ok;
      [|unfold cache_at; erewrite bind_run_ok by reflexivity;
        rewrite Hc; apply outcome_eta].
    cbn [app].
    erewrite bind_run_ok by reflexivity.
    cbn [app].
    erewrite bind_run_ok
      by (unfold lift; apply (f_equal (Outcome [] c)); exact Hv).
    done.
  - apply bools_to_ints_values.
Qed.

End Runs.

(** ** The theorems on concrete runs *)

Lemma missing_channel_is_skipped_witness :
  let cfg := Scenario.config [Scenario.brightness] 0 0 in
  let fetch j :=
    get_db Scenario.second_channel_only TInt (group Scenario.brightness)
      (variable Scenario.brightness j) (skipDerived cfg) in
  channel_skipped Scenario.brightness 0 ∅ (fun j => is_Some (fetch j))
    (getData_channel Scenario.second_channel_only cfg TInt Scenario.brightness)
    (getData Scenario.second_channel_only cfg TInt Scenario.brightness ∅).
Proof.
  intros cfg fetch.
  assert (channels_declared : channels Scenario.brightness <> [])
    by (vm_compute; discriminate).
  assert (first_channel : 0 ∈ iota (size Scenario.brightness))
    by (apply elem_of_iota; vm_compute; split; [discriminate|reflexivity]).
  assert (fetch_fails : fetch 0 = None) by (vm_compute; reflexivity).
  exact (proj1 (missing_channel_is_skipped Scenario.second_channel_only cfg TInt
                  Scenario.brightness 0 ∅ channels_declared first_channel)
           fetch_fails).
Defined.

(** C6, as the code has it: with channel 1 absent from the store, the
    gather of channel 1 is not called. *)
Lemma gather_calls_depend_on_channels :
  let cfg := Scenario.config [Scenario.brightness] 0 0 in
  collectives (getData Scenario.both_channels cfg TInt Scenario.brightness ∅)
    = [Collective (GatherColumn "ObsValue/brightnessTemperature_1");
       Collective (GatherColumn "ObsValue/brightnessTemperature_2")]
  /\ collectives (getData Scenario.second_channel_only cfg TInt Scenario.brightness ∅)
     = [Collective (GatherColumn "ObsValue/brightnessTemperature_2")]
  /\ collectives (getData Scenario.both_channels cfg TInt Scenario.brightness ∅)
     <> collectives (getData Scenario.second_channel_only cfg TInt Scenario.brightness ∅).
Proof.
  intros cfg.
  assert (collectives (getData Scenario.both_channels cfg TInt Scenario.brightness ∅)
    = [Collective (GatherColumn "ObsValue/brightnessTemperature_1");
       Collective (GatherColumn "ObsValue/brightnessTemperature_2")]) as Hboth
    by (vm_compute; reflexivity).
  assert (collectives (getData Scenario.second_channel_only cfg TInt Scenario.brightness ∅)
     = [Collective (GatherColumn "ObsValue/brightnessTemperature_2")]) as Hsecond
    by (vm_compute; reflexivity).
  split_and!; [exact Hboth|exact Hsecond|].
  rewrite Hboth, Hsecond. discriminate.
Qed.

Lemma gather_calls_follow_fetches_witness :
  let cfg := Scenario.config [Scenario.brightness] 0 0 in
  collectives (getData Scenario.second_channel_only cfg TInt Scenario.brightness ∅)
  = map (fun ich => Collective (GatherColumn
                                  (getVariableNameWithChannel Scenario.brightness ich)))
      (filter (fun ich => is_Some (get_db Scenario.second_channel_only TInt
                                     (group Scenario.brightness)
                                     (variable Scenario.brightness ich)
                                     (skipDerived cfg)))
         (iota (size Scenario.brightness))).
Proof.
  intros cfg.
  assert (channels_declared : channels Scenario.brightness <> [])
    by (vm_compute; discriminate).
  exact (proj1 (gather_calls_follow_fetches Scenario.second_channel_only cfg TInt
                  Scenario.brightness ∅ channels_declared)).
Defined.

(** C4, as the code has it: the range error comes after the gather of
    the columns; a minimum above a maximum of 0 is no error, nor is a
    minimum above the maximum that is moved down to the last row. *)
Lemma range_error_follows_gathers :
  let failed := Scenario.run Scenario.with_pressure
                  (Scenario.config [Scenario.pressure] 2 1) doFilter in
  let passed := Scenario.run Scenario.with_pressure
                  (Scenario.config [Scenario.pressure] 3 0) doFilter in
  let moved := Scenario.run Scenario.with_pressure
                 (Scenario.config [Scenario.pressure] 5 4) doFilter in
  out_value failed = Raise range_error
  /\ collectives failed = [Collective (GatherColumn "MetaData/pressure")]
  /\ out_value passed = Ok tt
  /\ out_value moved = Ok tt
  /\ ~ (out_value failed = Raise range_error /\ collectives failed = []).
Proof.
  intros failed passed moved.
  assert (collectives failed = [Collective (GatherColumn "MetaData/pressure")])
    as Hgathers by (vm_compute; reflexivity).
  split_and!; [vm_compute; reflexivity|exact Hgathers|vm_compute; reflexivity..|].
  intros [_ Hnone]. rewrite Hgathers in Hnone. discriminate Hnone.
Qed.

Lemma range_error_after_column_gathers_witness :
  let cfg := Scenario.config [Scenario.pressure] 2 1 in
  Scenario.run Scenario.with_pressure cfg printAllData
    = Outcome [] ∅ (Raise range_error)
  /\ out_value (Scenario.run Scenario.with_pressure cfg doFilter)
     = Raise range_error.
Proof.
  assert (bounds :
    effective_locmin (globalNumLocs Scenario.with_pressure)
      (locmin (Scenario.config [Scenario.pressure] 2 1))
    > effective_locmax (globalNumLocs Scenario.with_pressure)
        (locmax (Scenario.config [Scenario.pressure] 2 1)))
    by (vm_compute; reflexivity).
  assert (gathered :
    out_value (getAllData Scenario.with_pressure
                 (Scenario.config [Scenario.pressure] 2 1) ∅) = Ok tt)
    by (vm_compute; reflexivity).
  destruct (range_error_after_column_gathers (fun _ _ => pretty) Scenario.show_Z
              Z.eqb Z.eqb (-999) (-999) "MISSING" (-999)
              Scenario.with_pressure (Scenario.config [Scenario.pressure] 2 1) ∅
              bounds)
    as (Hprint & _ & Hfilter).
  split; [exact Hprint|]. exact (proj1 (Hfilter gathered)).
Defined.

Lemma cell_rendering_witness :
  let cell := printVariable (fun _ _ => pretty) Scenario.show_Z Z.eqb Z.eqb
                (-999) (-999) "MISSING" (-999) (Scenario.config [] 0 0) TFloat
                "GeoVaLs/air_temperature (level 3)" in
  let c := {[ "GeoVaLs/air_temperature (level 3)" := FloatColumn [-999; 288] ]} in
  cell 0 c = Outcome [Emit (setw 10 "missing")] c (Ok tt)
  /\ cell 1 c = Outcome [Emit (setw 10 (pretty 288))] c (Ok tt).
Proof.
  intros cell c.
  assert (cached : c !! "GeoVaLs/air_temperature (level 3)"
                   = Some (to_column TFloat [-999; 288]))
    by (vm_compute; reflexivity).
  destruct (cell_rendering (fun _ _ => pretty) Scenario.show_Z Z.eqb Z.eqb
             (-999) (-999) "MISSING" (-999) (Scenario.config [] 0 0) TFloat
             "GeoVaLs/air_temperature (level 3)" 0 c [-999; 288] (-999)
             cached eq_refl) as (Hmissing & _).
  destruct (cell_rendering (fun _ _ => pretty) Scenario.show_Z Z.eqb Z.eqb
             (-999) (-999) "MISSING" (-999) (Scenario.config [] 0 0) TFloat
             "GeoVaLs/air_temperature (level 3)" 1 c [-999; 288] 288
             cached eq_refl) as (_ & _ & Hvalue & _).
  split; [exact (Hmissing eq_refl)|exact (Hvalue eq_refl)].
Defined.

(** * Further properties *)

(** ** The window of rows, in terms of the configured bounds *)

(** X1: the minimum that the code uses is the configured one cut to the
    last row; the range check fails exactly when the configured maximum is
    not 0 and lies below that minimum.  With the maximum left at 0 no
    minimum makes it fail. *)
Theorem range_check_in_configured_bounds (nlocs : nat) (lmin lmax : Z) :
  effective_locmin nlocs lmin = Z.min lmin (Z.of_nat nlocs - 1)
  /\ (check_range (effective_locmin nlocs lmin) (effective_locmax nlocs lmax)
        = Raise range_error
      <-> lmax <> 0 /\ lmax < Z.min lmin (Z.of_nat nlocs - 1))
  /\ (check_range (effective_locmin nlocs lmin) (effective_locmax nlocs lmax)
        = Ok tt
      <-> lmax = 0 \/ Z.min lmin (Z.of_nat nlocs - 1) <= lmax).
Proof.
  unfold effective_locmin, effective_locmax, check_range, range_error.
  destruct (Z.geb_spec lmin (Z.of_nat nlocs)), (Z.eqb_spec lmax 0);
    match goal with
    | |- context [?a >? ?b] => destruct (Z.gtb_spec a b)
    end;
    (split; [lia|]); split; split; intros Hc; try done; try lia.
Qed.

(** ** Row selection, when it succeeds *)

Lemma select_loop_filter sortIdx globalApply lmin lmax permuted locs idxs locs' idxs' :
  select_loop sortIdx globalApply lmin lmax permuted locs idxs = Ok (locs', idxs') ->
  locs' = locs ++ List.filter (selected sortIdx globalApply lmin lmax) permuted
  /\ idxs' = idxs ++ map (vget sortIdx)
                       (List.filter (selected sortIdx globalApply lmin lmax) permuted).
Proof.
  revert locs idxs. induction permuted as [|loc rest IH]; intros locs idxs; cbn [select_loop].
  - intros [= <- <-]. cbn. by rewrite !app_nil_r.
  - cbn [List.filter].
    assert (selected sortIdx globalApply lmin lmax loc
            = (loc >=? lmin) && (loc <? lmax)
              && negb (vget globalApply (vget sortIdx loc) =? 0)) as Hsel
      by reflexivity.
    destruct ((loc >=? lmin) && (loc <? lmax)); cbn [andb] in Hsel;
      [|rewrite Hsel; apply IH].
    destruct (vat sortIdx loc) as [pos|e] eqn:Hpos; cbn [mbind result_bind rbind]; [|done].
    destruct (vat globalApply pos) as [app|e] eqn:Happ; cbn [mbind result_bind rbind]; [|done].
    rewrite (vat_vget _ _ _ Hpos), (vat_vget _ _ _ Happ) in Hsel.
    rewrite Hsel.
    destruct (app =? 0); cbn [negb]; [apply IH|].
    intros Hrun. apply IH in Hrun as [-> ->].
    cbn [map]. rewrite (vat_vget _ _ _ Hpos). by rewrite <- !app_assoc.
Qed.

Lemma StronglySorted_filter {A} (R : A -> A -> Prop) (f : A -> bool) l :
  StronglySorted R l -> StronglySorted R (List.filter f l).
Proof.
  induction 1 as [|x l Hs IH Hx]; cbn; [constructor|].
  destruct (f x); [|done]. constructor; [done|].
  rewrite Forall_forall in Hx. rewrite Forall_forall.
  intros y Hy. apply Hx. apply list_elem_of_In in Hy. apply filter_In in Hy as [Hy _].
  by apply list_elem_of_In.
Qed.

(** X2: when the selection loop ends normally, the rows to print are the
    entries of the permuted index inside the window whose mask is set at
    [sortIndices[loc]], in the order of the permuted index, which is
    strictly ascending; the positions are [sortIndices[loc]], one for each
    row; and every row to print is a row of the gathered index. *)
Theorem select_rows_result (nlocs : nat) (lmin lmax : Z)
    (globalApply globalIndex locsToPrint indicesToPrint : list Z)
    (Hlen : nlocs = length globalIndex) (Hdistinct : NoDup globalIndex)
    (Hrun : select_rows nlocs lmin lmax globalApply globalIndex
            = Ok (locsToPrint, indicesToPrint)) :
  let sortIdx := sortIndices nlocs globalIndex in
  locsToPrint
    = List.filter (selected sortIdx globalApply lmin lmax)
        (permutedGlobalIndex globalIndex sortIdx)
  /\ indicesToPrint = map (vget sortIdx) locsToPrint
  /\ length indicesToPrint = length locsToPrint
  /\ StronglySorted Z.lt locsToPrint
  /\ Forall (fun loc => lmin <= loc < lmax /\ loc ∈ globalIndex) locsToPrint.
Proof.
  intros sortIdx. unfold select_rows in Hrun. fold sortIdx in Hrun.
  apply select_loop_filter in Hrun as [Hl Hi]. cbn [app] in Hl, Hi.
  subst nlocs. split_and!.
  - done.
  - by rewrite Hi, Hl.
  - by rewrite Hi, length_map, Hl.
  - rewrite Hl. apply StronglySorted_filter. by apply permutedGlobalIndex_ascending.
  - rewrite Hl, Forall_forall. intros loc Hloc.
    apply list_elem_of_In, filter_In in Hloc as [Hin Hsel].
    unfold selected in Hsel. apply andb_prop in Hsel as [Hwin _].
    apply andb_prop in Hwin as [Hge Hlt].
    split; [lia|].
    rewrite <- (permutedGlobalIndex_Permutation globalIndex).
    by apply list_elem_of_In.
Qed.

Lemma select_rows_result_witness :
  [1; 2; 3] = List.filter (selected (sortIndices 4 [2; 0; 3; 1]) [1; 0; 1; 1] 1 6)
                (permutedGlobalIndex [2; 0; 3; 1] (sortIndices 4 [2; 0; 3; 1]))
  /\ [3; 0; 2] = map (vget (sortIndices 4 [2; 0; 3; 1])) [1; 2; 3].
Proof.
  assert (distinct : NoDup [2; 0; 3; 1])
    by (apply (bool_decide_unpack _); vm_compute; exact I).
  assert (run : select_rows 4 1 6 [1; 0; 1; 1] [2; 0; 3; 1] = Ok ([1; 2; 3], [3; 0; 2]))
    by (vm_compute; reflexivity).
  destruct (select_rows_result 4 1 6 [1; 0; 1; 1] [2; 0; 3; 1] [1; 2; 3] [3; 0; 2]
              eq_refl distinct run) as (Hl & Hi & _).
  split; [exact Hl|exact Hi].
Defined.

(** ** Pages: their number and their shape *)

Lemma concat_length_full (k : Z) (rows : list (list Z)) :
  Forall (fun r => Z.of_nat (length r) = k) rows ->
  Z.of_nat (length (concat rows)) = k * Z.of_nat (length rows).
Proof.
  induction 1 as [|r rows Hr _ IH]; cbn [concat length]; [lia|].
  rewrite length_app. lia.
Qed.

Lemma rows_ok_count perRow count rows :
  1 <= perRow -> 0 <= count -> rows_ok perRow count rows ->
  Z.of_nat (length (concat rows)) = count ->
  Z.of_nat (length rows) = (count + perRow - 1) / perRow.
Proof.
  intros Hp Hc [Hfull Hlast] Htotal.
  destruct (last rows) as [r|] eqn:Hr.
  - rewrite (last_Some_removelast _ _ Hr) in Htotal |- *.
    rewrite concat_app, !length_app in *. cbn [concat length] in *.
    rewrite app_nil_r in Htotal.
    pose proof (concat_length_full _ _ Hfull) as Hinit.
    destruct Hlast as [_ Hlen].
    destruct (rem_succ count perRow Hc Hp) as [Hm _].
    apply (Z.div_unique _ _ _ (Z.of_nat (length r) - 1)).
    + destruct (Z.eqb_spec (Z.rem count perRow) 0); lia.
    + nia.
  - apply last_None in Hr. subst rows. cbn in *. subst count.
    rewrite Z.div_small by lia. done.
Qed.

Lemma rows_ok_same_shape perRow count rl ri :
  rows_ok perRow count rl -> rows_ok perRow count ri ->
  length rl = length ri ->
  Forall2 (fun a b => length a = length b) rl ri.
Proof.
  intros [Hfl Hll] [Hfi Hli] Hlen.
  destruct (last rl) as [a|] eqn:Ha, (last ri) as [b|] eqn:Hb.
  - rewrite (last_Some_removelast _ _ Ha), (last_Some_removelast _ _ Hb) in Hlen |- *.
    rewrite !length_app in Hlen. cbn [length] in Hlen.
    apply Forall2_app.
    + apply Forall2_same_length_lookup_2; [lia|].
      intros i x y Hx Hy.
      apply (Forall_lookup_1 _ _ _ _ Hfl) in Hx.
      apply (Forall_lookup_1 _ _ _ _ Hfi) in Hy. lia.
    + constructor; [|constructor]. destruct Hll as [_ Hla], Hli as [_ Hlb]. lia.
  - apply last_None in Hb. subst ri.
    rewrite (last_Some_removelast _ _ Ha), length_app in Hlen. cbn in Hlen. lia.
  - apply last_None in Ha. subst rl.
    rewrite (last_Some_removelast _ _ Hb), length_app in Hlen. cbn in Hlen. lia.
  - apply last_None in Ha, Hb. subst. constructor.
Qed.

(** X5: for a page size of at least 1 the rows to print fill
    ceil(n / perRow) pages, and the pages of positions have the same shape
    as the pages of row numbers: page by page the same number of
    entries. *)
Theorem paginate_page_count (perRow : Z) (locsToPrint indicesToPrint : list Z)
    (Hsize : 1 <= perRow)
    (Hlength : length locsToPrint = length indicesToPrint) :
  exists rowOfLocsToPrint rowOfIndicesToPrint,
    paginate perRow locsToPrint indicesToPrint
      = Ok (rowOfLocsToPrint, rowOfIndicesToPrint)
    /\ Z.of_nat (length rowOfLocsToPrint)
       = (Z.of_nat (length locsToPrint) + perRow - 1) / perRow
    /\ Forall2 (fun locGroup idxGroup => length locGroup = length idxGroup)
         rowOfLocsToPrint rowOfIndicesToPrint.
Proof.
  destruct (paginate_loop_spec perRow (zip locsToPrint indicesToPrint) 0 [] []
              Hsize ltac:(lia) (rows_ok_nil _) (rows_ok_nil _))
    as (rl & ri & Hrun & Hl & Hi & Hcl & Hci).
  cbn [concat app] in Hcl, Hci.
  rewrite fst_zip in Hcl by lia. rewrite snd_zip in Hci by lia.
  rewrite Z.add_0_l, length_zip_with_l_eq in Hl, Hi by done.
  assert (Z.of_nat (length rl)
          = (Z.of_nat (length locsToPrint) + perRow - 1) / perRow) as Hnl.
  { apply (rows_ok_count perRow _ rl); [done|lia|done|by rewrite Hcl]. }
  assert (Z.of_nat (length ri)
          = (Z.of_nat (length locsToPrint) + perRow - 1) / perRow) as Hni.
  { apply (rows_ok_count perRow _ ri); [done|lia|done|by rewrite Hci, Hlength]. }
  exists rl, ri. split_and!; [exact Hrun|exact Hnl|].
  apply (rows_ok_same_shape perRow (Z.of_nat (length locsToPrint))); [done..|].
  apply Nat2Z.inj. by rewrite Hnl, Hni.
Qed.

Lemma paginate_page_count_witness :
  exists rowOfLocsToPrint rowOfIndicesToPrint,
    paginate 3 [1; 2; 3; 4] [2; 0; 3; 1] = Ok (rowOfLocsToPrint, rowOfIndicesToPrint)
    /\ Z.of_nat (length rowOfLocsToPrint) = (Z.of_nat 4 + 3 - 1) / 3
    /\ Forall2 (fun locGroup idxGroup => length locGroup = length idxGroup)
         rowOfLocsToPrint rowOfIndicesToPrint.
Proof.
  assert (size : 1 <= 3) by lia.
  exact (paginate_page_count 3 [1; 2; 3; 4] [2; 0; 3; 1] size eq_refl).
Defined.

(** ** Display Keys of levels *)

Lemma append_inj_r (s1 s2 t : string) : s1 +:+ t = s2 +:+ t -> s1 = s2.
Proof.
  revert s2. induction s1 as [|a s1 IH]; intros [|b s2] Heq.
  - done.
  - apply (f_equal String.length) in Heq.
    change ("" +:+ t) with t in Heq.
    change (String.length (String b s2 +:+ t))
      with (S (String.length (s2 +:+ t))) in Heq.
    rewrite string_length_app in Heq. lia.
  - apply (f_equal String.length) in Heq.
    change ("" +:+ t) with t in Heq.
    change (String.length (String a s1 +:+ t))
      with (S (String.length (s1 +:+ t))) in Heq.
    rewrite string_length_app in Heq. lia.
  - change (String a (s1 +:+ t) = String b (s2 +:+ t)) in Heq.
    injection Heq as -> Heq. f_equal. by apply IH.
Qed.

Lemma getVariableNameAtLevel_inj (varname : string) (level1 level2 : Z) :
  getVariableNameAtLevel varname level1 = getVariableNameAtLevel varname level2 ->
  level1 = level2.
Proof.
  unfold getVariableNameAtLevel. intros Hkey.
  apply String.app_inj, String.app_inj, append_inj_r in Hkey.
  by apply pretty_Z_inj in Hkey.
Qed.

(** X6: the Display Key of a level gives the level back: two levels of one
    field have the same key only if they are the same level. *)
Theorem level_key_gives_level (varname : string) (level1 level2 : Z)
    (Hkey : getVariableNameAtLevel varname level1
            = getVariableNameAtLevel varname level2) :
  level1 = level2.
Proof. by apply (getVariableNameAtLevel_inj varname). Qed.

Lemma level_key_gives_level_witness : 3 = 3.
Proof.
  apply (level_key_gives_level "GeoVaLs/air_temperature" 3 3). reflexivity.
Defined.

Section Reading.

Context {float DateTime : Type}.
Context (show_float : bool -> Z -> float -> string).
Context (show_DateTime : Z -> DateTime -> string).
Context (float_eqb : float -> float -> bool).
Context (DateTime_eqb : DateTime -> DateTime -> bool).
Context (missing_int : Z) (missing_float : float)
        (missing_string : string) (missing_DateTime : DateTime).
Context (store : @ObsStore float DateTime) (parameters_ : Parameters_).

Abbreviation cache := (gmap string (@column float DateTime)).

Lemma quiet_ret {A} (a : A) : quiet (mret a : @M float DateTime A).
Proof. intros c. by split. Qed.

Lemma quiet_emit text : quiet (emit text : @M float DateTime unit).
Proof. intros c. split; [done|]. by repeat constructor. Qed.

Lemma quiet_lift {A} (r : result A) : quiet (lift r : @M float DateTime A).
Proof. intros c. by split. Qed.

Lemma quiet_cache_get : quiet (cache_get : @M float DateTime cache).
Proof. intros c. by split. Qed.

Lemma quiet_bind {A B} (m : @M float DateTime A) (k : A -> @M float DateTime B) :
  quiet m -> (forall a, quiet (k a)) -> quiet (m ≫= k).
Proof.
  intros Hm Hk c. rewrite bind_run.
  destruct (Hm c) as [Hc He].
  destruct (out_value (m c)) as [a|e]; cbn [out_cache out_events]; [|done].
  rewrite Hc. destruct (Hk a c) as [Hc' He']. split; [done|].
  by apply Forall_app.
Qed.

Lemma quiet_for_each {A} (l : list A) (body : A -> @M float DateTime unit) :
  (forall x, quiet (body x)) -> quiet (for_each l body).
Proof.
  intros Hbody. induction l as [|x l IH]; cbn [for_each].
  - apply quiet_ret.
  - apply quiet_bind; [apply Hbody|done].
Qed.

Lemma quiet_cache_at varname : quiet (cache_at varname : @M float DateTime column).
Proof.
  unfold cache_at. apply quiet_bind; [apply quiet_cache_get|].
  intros fd. destruct (fd !! varname); [apply quiet_ret|apply quiet_lift].
Qed.

Lemma quiet_printVariable T varname loc :
  quiet (printVariable show_float show_DateTime float_eqb DateTime_eqb
           missing_int missing_float missing_string missing_DateTime
           parameters_ T varname loc).
Proof.
  unfold printVariable.
  apply quiet_bind; [apply quiet_cache_at|]. intros col.
  apply quiet_bind; [apply quiet_lift|]. intros vec.
  apply quiet_bind; [apply quiet_lift|]. intros value.
  destruct (is_missing _ _ _ _ _ _ T value); apply quiet_emit.
Qed.

Lemma quiet_printVariable_bool varname loc :
  quiet (printVariable_bool parameters_ varname loc : @M float DateTime unit).
Proof.
  unfold printVariable_bool.
  apply quiet_bind; [apply quiet_cache_at|]. intros col.
  apply quiet_bind; [apply quiet_lift|]. intros vec.
  apply quiet_bind; [apply quiet_lift|]. intros value.
  apply quiet_emit.
Qed.

Lemma quiet_print_cell v varname idx :
  quiet (print_cell show_float show_DateTime float_eqb DateTime_eqb
           missing_int missing_float missing_string missing_DateTime
           store parameters_ v varname idx).
Proof.
  unfold print_cell. apply quiet_bind; [|intros; apply quiet_emit].
  destruct (dtype store v);
    first [apply quiet_printVariable|apply quiet_printVariable_bool|apply quiet_ret].
Qed.

Lemma quiet_print_page maxLen locGroup idxGroup :
  quiet (print_page show_float show_DateTime float_eqb DateTime_eqb
           missing_int missing_float missing_string missing_DateTime
           store parameters_ maxLen locGroup idxGroup).
Proof.
  unfold print_page.
  repeat (apply quiet_bind; [first [apply quiet_emit
                                   |apply quiet_for_each; intros; apply quiet_emit
                                   |idtac]|intros _]);
    try apply quiet_emit.
  apply quiet_for_each. intros vp.
  destruct (negb (has store (pvariable vp))); [apply quiet_ret|].
  destruct (isMultiLevelData (pvariable vp)).
  - apply quiet_for_each. intros level.
    apply quiet_bind; [apply quiet_cache_get|]. intros fd.
    destruct (fd !! _); [|apply quiet_ret].
    apply quiet_bind; [apply quiet_emit|]. intros _.
    apply quiet_bind; [|intros; apply quiet_emit].
    apply quiet_for_each. intros idx.
    apply quiet_bind; [apply quiet_printVariable|intros; apply quiet_emit].
  - apply quiet_for_each. intros ich.
    apply quiet_bind; [apply quiet_cache_get|]. intros fd.
    destruct (fd !! _); [|apply quiet_ret].
    apply quiet_bind; [apply quiet_emit|]. intros _.
    apply quiet_bind; [|intros; apply quiet_emit].
    apply quiet_for_each. intros idx. apply quiet_print_cell.
Qed.

Lemma quiet_collectives {A} (m : @M float DateTime A) c :
  quiet m -> collectives (m c) = [].
Proof.
  intros Hm. destruct (Hm c) as [_ He]. unfold collectives.
  induction He as [|e l He _ IH]; [done|].
  rewrite filter_cons_False by congruence. done.
Qed.

Lemma printAllData_cache_and_collectives (c : cache) :
  let o := printAllData show_float show_DateTime float_eqb DateTime_eqb
             missing_int missing_float missing_string missing_DateTime
             store parameters_ c in
  let nlocs := globalNumLocs store in
  out_cache o = c
  /\ collectives o
     = match check_range (effective_locmin nlocs (locmin parameters_))
               (effective_locmax nlocs (locmax parameters_)),
             nlocsPerRow (maxTextWidth parameters_)
               (getMaxVariableNameLength parameters_ c) (columnWidth parameters_)
       with
       | Ok _, Ok _ => [Collective GatherApply; Collective GatherIndex]
       | _, _ => []
       end.
Proof.
  intros o nlocs. subst o. unfold printAllData. fold nlocs.
  rewrite bind_run. cbn [cache_get out_value out_cache out_events app].
  destruct (check_range (effective_locmin nlocs (locmin parameters_))
              (effective_locmax nlocs (locmax parameters_))) as [[]|e] eqn:Hcheck.
  2:{ erewrite bind_run_raise by (unfold lift; reflexivity). by split. }
  erewrite bind_run_ok by (unfold lift; reflexivity). cbn [app].
  destruct (nlocsPerRow (maxTextWidth parameters_)
              (getMaxVariableNameLength parameters_ c) (columnWidth parameters_))
    as [perRow|e] eqn:Hrow.
  2:{ erewrite bind_run_raise by (unfold lift; reflexivity). by split. }
  erewrite bind_run_ok by (unfold lift; reflexivity). cbn [app].
  erewrite bind_run_ok by reflexivity.
  erewrite bind_run_ok by reflexivity.
  match goal with
  | |- context [out_cache (?m c)] =>
      assert (quiet m) as Hquiet
  end.
  { apply quiet_bind; [apply quiet_lift|]. intros sel.
    apply quiet_bind; [apply quiet_lift|]. intros rows.
    apply quiet_for_each. intros page. apply quiet_print_page. }
  destruct (Hquiet c) as [Hc He].
  cbn [out_cache out_events]. split; [exact Hc|].
  unfold collectives. cbn [out_events app].
  rewrite !filter_cons_True by done.
  do 2 f_equal. by apply (quiet_collectives _ c).
Qed.

(** X7: [printAllData] leaves the cache of columns as it found it, and its
    collective calls are the gather of the mask followed by the gather of
    the index, both made once the range check and the division for the
    page size have passed, and none otherwise; the selection, the paging
    and the printing make no collective call, also when they fail. *)
Theorem printAllData_reads_only (c : cache) :
  let o := printAllData show_float show_DateTime float_eqb DateTime_eqb
             missing_int missing_float missing_string missing_DateTime
             store parameters_ c in
  let nlocs := globalNumLocs store in
  out_cache o = c
  /\ collectives o
     = match check_range (effective_locmin nlocs (locmin parameters_))
               (effective_locmax nlocs (locmax parameters_)),
             nlocsPerRow (maxTextWidth parameters_)
               (getMaxVariableNameLength parameters_ c) (columnWidth parameters_)
       with
       | Ok _, Ok _ => [Collective GatherApply; Collective GatherIndex]
       | _, _ => []
       end.
Proof. apply printAllData_cache_and_collectives. Qed.


End Reading.


Section Gathering.

Context {float DateTime : Type}.
Context (show_float : bool -> Z -> float -> string).
Context (show_DateTime : Z -> DateTime -> string).
Context (float_eqb : float -> float -> bool).
Context (DateTime_eqb : DateTime -> DateTime -> bool).
Context (missing_int : Z) (missing_float : float)
        (missing_string : string) (missing_DateTime : DateTime).
Context (store : @ObsStore float DateTime) (parameters_ : Parameters_).

Abbreviation cache := (gmap string (@column float DateTime)).

Lemma column_gathers_idle {A} (c : cache) text (r : result A) :
  Forall (fun e => is_collective e = false) text ->
  column_gathers c (Outcome text c r).
Proof.
  intros Htext. unfold column_gathers. cbn [out_events out_cache].
  rewrite Forall_forall in Htext. split_and!; [done| |auto|].
  - intros k Hk. by apply Htext in Hk.
  - rewrite Forall_forall. intros e He. apply Htext in He.
    split; intros ->; done.
Qed.

Lemma column_gathers_insert (c : cache) k col :
  column_gathers c (Outcome [Collective (GatherColumn k)] (<[k := col]> c) (Ok tt)).
Proof.
  unfold column_gathers. cbn [out_events out_cache]. split_and!.
  - intros k' Hk'. destruct (decide (k = k')) as [->|Hne].
    + rewrite lookup_insert_eq. eauto.
    + by rewrite lookup_insert_ne.
  - intros k' Hk'. apply list_elem_of_singleton in Hk'. injection Hk' as ->.
    rewrite lookup_insert_eq. eauto.
  - intros k' Hk'. destruct (decide (k = k')) as [->|Hne].
    + right. by apply list_elem_of_singleton.
    + left. by rewrite lookup_insert_ne in Hk'.
  - by repeat constructor.
Qed.

Lemma column_gathers_bind {A B} (m : @M float DateTime A) (k : A -> @M float DateTime B)
    (c : cache) :
  column_gathers c (m c) ->
  (forall a c', column_gathers c' (k a c')) ->
  column_gathers c ((m ≫= k) c).
Proof.
  intros (Hkeep & Hgot & Hnew & Hno) Hk. rewrite bind_run.
  destruct (out_value (m c)) as [a|e]; [|done].
  destruct (Hk a (out_cache (m c))) as (Hkeep' & Hgot' & Hnew' & Hno').
  unfold column_gathers. cbn [out_events out_cache]. split_and!.
  - auto.
  - intros key Hkey. apply elem_of_app in Hkey as [Hkey|Hkey]; auto.
  - intros key Hkey. apply Hnew' in Hkey as [Hkey|Hkey].
    + apply Hnew in Hkey as [Hkey|Hkey]; [by left|].
      right. apply elem_of_app. by left.
    + right. apply elem_of_app. by right.
  - by apply Forall_app.
Qed.

Lemma column_gathers_for_each {A} (l : list A) (body : A -> @M float DateTime unit)
    (c : cache) :
  (forall x c', column_gathers c' (body x c')) ->
  column_gathers c (for_each l body c).
Proof.
  intros Hbody. revert c. induction l as [|x l IH]; intros c; cbn [for_each].
  - by apply column_gathers_idle.
  - apply column_gathers_bind; [apply Hbody|]. intros _ c'. apply IH.
Qed.

Lemma column_gathers_getData T v (c : cache) :
  column_gathers c (getData store parameters_ T v c).
Proof.
  unfold getData. destruct (length (channels v) =? 0)%nat.
  - apply column_gathers_insert.
  - apply column_gathers_for_each. intros ich c'.
    rewrite getData_channel_run.
    destruct (fetched_channel store parameters_ T v ich).
    + apply column_gathers_insert.
    + apply column_gathers_idle. by repeat constructor.
Qed.

Lemma column_gathers_getData_bool v (c : cache) :
  column_gathers c (getData_bool store parameters_ v c).
Proof.
  unfold getData_bool. destruct (length (channels v) =? 0)%nat.
  - apply column_gathers_insert.
  - apply column_gathers_for_each. intros ich c'.
    rewrite getData_bool_channel_run.
    destruct (fetched_bool_channel store parameters_ v ich).
    + apply column_gathers_insert.
    + apply column_gathers_idle. by repeat constructor.
Qed.

Lemma column_gathers_getMultiLevelData v lvls (c : cache) :
  column_gathers c (getMultiLevelData store v lvls c).
Proof.
  unfold getMultiLevelData. apply column_gathers_for_each. intros level c'.
  destruct ((level <? 0) || (level >=? nlevs store v)).
  - apply column_gathers_idle. by repeat constructor.
  - apply column_gathers_insert.
Qed.

Lemma column_gathers_getAllData (c : cache) :
  column_gathers c (getAllData store parameters_ c).
Proof.
  unfold getAllData. apply column_gathers_for_each. intros vp c'.
  destruct (has store (pvariable vp)).
  - destruct (dtype store (pvariable vp));
      first [apply column_gathers_getData
            |apply column_gathers_getData_bool
            |idtac].
    + destruct (isMultiLevelData (pvariable vp));
        [apply column_gathers_getMultiLevelData|apply column_gathers_getData].
    + by apply column_gathers_idle.
  - apply column_gathers_idle. by repeat constructor.
Qed.

(** X9: whatever the configuration and the store, and also when it ends in
    an exception, [getAllData] loses no key of the cache; every column it
    gathers is in the cache under its Display Key afterwards; every key
    that is new in the cache was gathered; and it gathers neither the mask
    nor the index. *)
Theorem getAllData_gathers_columns (c : cache) :
  column_gathers c (getAllData store parameters_ c).
Proof. apply column_gathers_getAllData. Qed.

End Gathering.

Section Levels.

Context {float DateTime : Type}.
Context (store : @ObsStore float DateTime) (parameters_ : Parameters_).

Abbreviation cache := (gmap string (@column float DateTime)).
Abbreviation name v level := (getVariableNameAtLevel (fullName v) level).

Lemma for_each_value {A} (l : list A) (body : A -> @M float DateTime unit) :
  (forall x c, out_value (body x c) = Ok tt) ->
  forall c, out_value (for_each l body c) = Ok tt.
Proof.
  intros Hbody. induction l as [|x l IH]; intros c; cbn [for_each]; [done|].
  rewrite bind_run, Hbody. cbn [out_value]. apply IH.
Qed.

Lemma for_each_events {A} (l : list A) (body : A -> @M float DateTime unit)
    (ev : A -> event) :
  (forall x c, out_events (body x c) = [ev x] /\ out_value (body x c) = Ok tt) ->
  forall c, out_events (for_each l body c) = map ev l.
Proof.
  intros Hbody. induction l as [|x l IH]; intros c; cbn [for_each map]; [done|].
  rewrite bind_run. destruct (Hbody x c) as [-> ->]. cbn [out_events].
  by rewrite IH.
Qed.

Lemma level_turn v level (c : cache) :
  (let MultiLevelVariableName := name v level in
   if (level <? 0) || (level >=? nlevs store v)
   then emit (not_present MultiLevelVariableName)
   else
     globalVariableData ←
       gather store TFloat (GatherColumn MultiLevelVariableName)
         (data_get_level store v level);
     cache_insert MultiLevelVariableName (FloatColumn globalVariableData)) c
  = Outcome [level_event store v level]
      (if level_in_range store v level
       then <[name v level := level_column store v level]> c else c)
      (Ok tt).
Proof.
  unfold level_event, level_in_range, level_column. cbv zeta.
  by destruct ((level <? 0) || (level >=? nlevs store v)).
Qed.

Lemma getMultiLevelData_run v lvls (c : cache) :
  out_value (getMultiLevelData store v lvls c) = Ok tt
  /\ out_events (getMultiLevelData store v lvls c) = map (level_event store v) lvls.
Proof.
  unfold getMultiLevelData. split.
  - apply for_each_value. intros level c'. by rewrite level_turn.
  - apply for_each_events. intros level c'. by rewrite level_turn.
Qed.

Lemma getMultiLevelData_cache v lvls (c : cache) level :
  out_cache (getMultiLevelData store v lvls c) !! name v level
  = if bool_decide (level ∈ lvls) && level_in_range store v level
    then Some (level_column store v level)
    else c !! name v level.
Proof.
  unfold getMultiLevelData. revert c.
  induction lvls as [|x lvls IH]; intros c; cbn [for_each].
  - rewrite bool_decide_eq_false_2 by apply not_elem_of_nil. done.
  - rewrite bind_run, level_turn. cbn [out_value out_cache].
    rewrite IH.
    destruct (level_in_range store v level) eqn:Hlevel.
    + rewrite !andb_true_r.
      destruct (decide (level ∈ lvls)) as [Hin|Hout].
      * rewrite (bool_decide_eq_true_2 _ Hin).
        by rewrite bool_decide_eq_true_2 by (by right).
      * rewrite (bool_decide_eq_false_2 _ Hout).
        destruct (decide (level = x)) as [->|Hne].
        -- rewrite bool_decide_eq_true_2 by (by left).
           by rewrite Hlevel, lookup_insert_eq.
        -- rewrite bool_decide_eq_false_2
             by (intros [?|?]%elem_of_cons; done).
           destruct (level_in_range store v x); [|done].
           apply lookup_insert_ne. intros Heq.
           by apply getVariableNameAtLevel_inj in Heq.
    + rewrite !andb_false_r.
      destruct (level_in_range store v x) eqn:Hx; [|done].
      apply lookup_insert_ne. intros Heq.
      apply getVariableNameAtLevel_inj in Heq. congruence.
Qed.

(** X13: [getMultiLevelData] always ends normally.  For each level, in the
    order given, it gathers the column of a level inside
    [0 .. nlevs-1] and writes a note for a level outside (never a gather);
    afterwards the key of a requested level inside the range holds the
    gathered column of that level, and every other level key is as it was
    before. *)
Theorem getMultiLevelData_levels (v : ufoVariable) (lvls : list Z) (c : cache) :
  let o := getMultiLevelData store v lvls c in
  out_value o = Ok tt
  /\ out_events o = map (level_event store v) lvls
  /\ (forall level,
        level_in_range store v level = true <-> 0 <= level < nlevs store v)
  /\ (forall level,
        out_cache o !! name v level
        = if bool_decide (level ∈ lvls) && level_in_range store v level
          then Some (level_column store v level)
          else c !! name v level).
Proof.
  intros o. subst o. destruct (getMultiLevelData_run v lvls c) as [Hv He].
  split_and!; [done|done| |apply getMultiLevelData_cache].
  intros level. unfold level_in_range.
  destruct (Z.ltb_spec level 0), (Z.geb_spec level (nlevs store v));
    cbn; split; intros; try done; lia.
Qed.

End Levels.

Section Dispatch.

Context {float DateTime : Type}.
Context (show_float : bool -> Z -> float -> string).
Context (show_DateTime : Z -> DateTime -> string).
Context (float_eqb : float -> float -> bool).
Context (DateTime_eqb : DateTime -> DateTime -> bool).
Context (missing_int : Z) (missing_float : float)
        (missing_string : string) (missing_DateTime : DateTime).
Context (store : @ObsStore float DateTime) (parameters_ : Parameters_).

Abbreviation cache := (gmap string (@column float DateTime)).

Lemma for_each_value_until {A} (l : list A) (body : A -> @M float DateTime unit)
    (ok : A -> bool) (e : exn) :
  (forall x c, out_value (body x c) = if ok x then Ok tt else Raise e) ->
  forall c, out_value (for_each l body c)
            = if forallb ok l then Ok tt else Raise e.
Proof.
  intros Hbody. induction l as [|x l IH]; intros c; cbn [for_each forallb]; [done|].
  rewrite bind_run, Hbody.
  destruct (ok x); cbn [andb out_value]; [apply IH|done].
Qed.

Lemma getData_value T v (c : cache) :
  out_value (getData store parameters_ T v c) = Ok tt.
Proof.
  unfold getData. destruct (length (channels v) =? 0)%nat; [done|].
  apply for_each_value. intros ich c'. rewrite getData_channel_run.
  by destruct (fetched_channel store parameters_ T v ich).
Qed.

Lemma getData_bool_value v (c : cache) :
  out_value (getData_bool store parameters_ v c) = Ok tt.
Proof.
  unfold getData_bool. destruct (length (channels v) =? 0)%nat; [done|].
  apply for_each_value. intros ich c'. rewrite getData_bool_channel_run.
  by destruct (fetched_bool_channel store parameters_ v ich).
Qed.

Lemma getAllData_value (c : cache) :
  out_value (getAllData store parameters_ c)
  = if forallb (dispatchable store) (variables parameters_)
    then Ok tt else Raise invalid_type.
Proof.
  unfold getAllData. apply for_each_value_until. intros vp c'.
  unfold dispatchable. destruct (has store (pvariable vp)); cbn [negb orb]; [|done].
  destruct (dtype store (pvariable vp));
    first [apply getData_value|apply getData_bool_value|idtac].
  - destruct (isMultiLevelData (pvariable vp)); [|apply getData_value].
    apply (getMultiLevelData_run store).
  - done.
Qed.

(** X10: [getAllData] ends normally exactly when every declared field that
    the store holds has one of the five element types of the [switch];
    otherwise it raises BadParameter.  No fetch of a channel or of a level
    can make it fail. *)
Theorem getAllData_fails_on_type_only (c : cache) :
  out_value (getAllData store parameters_ c)
  = if forallb (dispatchable store) (variables parameters_)
    then Ok tt else Raise invalid_type.
Proof. apply getAllData_value. Qed.

(** X11: when a declared field that the store holds has another element
    type, [doFilter] ends with BadParameter after the welcome text and the
    events of [getAllData]: [printAllData] is not run, so neither the mask
    nor the index is gathered and no table is printed. *)
Theorem doFilter_stops_on_invalid_type (c : cache)
    (Hinvalid : forallb (dispatchable store) (variables parameters_) = false) :
  let filter := doFilter show_float show_DateTime float_eqb DateTime_eqb
                  missing_int missing_float missing_string missing_DateTime
                  store parameters_ in
  out_value (filter c) = Raise invalid_type
  /\ out_events (filter c)
     = out_events (welcome store parameters_ c)
       ++ out_events (getAllData store parameters_ c)
  /\ Forall (fun e => e <> Collective GatherApply /\ e <> Collective GatherIndex)
       (out_events (filter c)).
Proof.
  intros filter. subst filter. unfold doFilter.
  destruct (welcome_run store parameters_ c) as (text & Hw & Htext).
  rewrite (bind_run_ok _ _ c c text tt Hw), Hw.
  cbn [out_value out_events out_cache].
  pose proof (getAllData_value c) as Hvalue. rewrite Hinvalid in Hvalue.
  rewrite bind_run, Hvalue. cbn [out_value out_events out_cache].
  split_and!; [done..|].
  apply Forall_app. split.
  - eapply Forall_impl; [exact Htext|]. cbn. intros e He. split; intros ->; done.
  - apply (column_gathers_getAllData store parameters_ c).
Qed.

(** X12: when the store holds none of the declared fields, [getAllData]
    writes one note for each declared field, with the field's full name and
    in the declared order; it makes no collective call and leaves the cache
    as it is. *)
Theorem getAllData_absent_fields (c : cache)
    (Habsent : forall variableParams, variableParams ∈ variables parameters_ ->
                 has store (pvariable variableParams) = false) :
  getAllData store parameters_ c
  = Outcome (map (fun variableParams =>
                    Emit (not_present (fullName (pvariable variableParams))))
               (variables parameters_))
      c (Ok tt).
Proof.
  unfold getAllData. revert c.
  induction (variables parameters_) as [|vp vars IH]; intros c; cbn [for_each map];
    [done|].
  rewrite bind_run, (Habsent vp) by (by left).
  cbn [emit out_value out_cache out_events].
  rewrite IH by (intros x Hx; apply Habsent; by right). done.
Qed.

(** *** The longest Display Key *)






(** *** Cells that cannot be printed *)

(** X15: [printVariable<T>] on a key whose column holds another element
    type raises bad_get, and on a position outside the column it reads
    outside the vector; in both cases nothing is written. *)
Theorem printVariable_failures (T : vtype) (varname : string) (loc : Z) (c : cache)
    (col : @column float DateTime)
    (Hcolumn : c !! varname = Some col) :
  let cell := printVariable show_float show_DateTime float_eqb DateTime_eqb
                missing_int missing_float missing_string missing_DateTime
                parameters_ T varname loc c in
  (boost_get T col = Raise BadGet -> cell = Outcome [] c (Raise BadGet))
  /\ (forall vec, col = to_column T vec ->
        loc < 0 \/ Z.of_nat (length vec) <= loc ->
        cell = Outcome [] c (Raise (OutOfBounds loc (length vec)))).
Proof.
  intros cell. subst cell. unfold printVariable.
  erewrite bind_run_ok;
    [|unfold cache_at; erewrite bind_run_ok by reflexivity;
      rewrite Hcolumn; apply outcome_eta].
  cbn [app]. split.
  - intros Hget. erewrite bind_run_raise; [reflexivity|].
    unfold lift. by rewrite Hget.
  - intros vec -> Hloc.
    erewrite bind_run_ok by (unfold lift; rewrite boost_get_to_column; reflexivity).
    cbn [app]. erewrite bind_run_raise; [reflexivity|].
    unfold lift. f_equal. unfold vat.
    destruct (Z.ltb_spec loc 0); [done|].
    by rewrite lookup_ge_None_2 by lia.
Qed.

End Dispatch.

(** ** ObsSfcCorrected: what simulateObs writes *)

Section SimulateObs.

Import ObsSfcCorrected.

Context {GeoVaLs ObsSpace float : Type}.
Context (zero : float).
Context (operators_ : list (@SurfaceOperator GeoVaLs ObsSpace float)).
Context (odb_ : ObsSpace) (gv : GeoVaLs).

Abbreviation after := (hofx_after operators_ odb_ gv).

Lemma place_inj nv jloc1 j1 jloc2 j2 :
  0 <= j1 < Z.of_nat nv -> 0 <= j2 < Z.of_nat nv ->
  place nv jloc1 j1 = place nv jloc2 j2 -> jloc1 = jloc2 /\ j1 = j2.
Proof.
  unfold place. intros H1 H2 Heq.
  apply Z2Nat.inj in Heq; [|nia..].
  assert (Z.of_nat jloc1 = Z.of_nat jloc2) by nia.
  split; [lia|nia].
Qed.

Lemma place_bound nv nl jloc j :
  0 <= j < Z.of_nat nv -> (jloc < nl)%nat -> (place nv jloc j < nl * nv)%nat.
Proof.
  unfold place. intros Hj Hl.
  apply Nat2Z.inj_lt. rewrite Z2Nat.id by nia. nia.
Qed.

Lemma populate_cells nv jvar (hofx : list float) jlocs vals nl :
  0 <= jvar < Z.of_nat nv ->
  length vals = (nl * nv)%nat ->
  (forall jloc, jloc ∈ jlocs -> (jloc < nl)%nat /\ (jloc < length hofx)%nat) ->
  exists vals',
    populate nv jvar hofx jlocs vals = Ok vals'
    /\ length vals' = (nl * nv)%nat
    /\ forall jloc j, 0 <= j < Z.of_nat nv ->
         vals' !! place nv jloc j
         = if bool_decide (j = jvar /\ jloc ∈ jlocs)
           then hofx !! jloc else vals !! place nv jloc j.
Proof.
  intros Hjvar. revert vals.
  induction jlocs as [|jl jlocs IH]; intros vals Hlen Hin; cbn [populate].
  - exists vals. split_and!; [done..|]. intros jloc j Hj.
    rewrite bool_decide_eq_false_2; [done|]. intros [_ H]. by apply elem_of_nil in H.
  - destruct (Hin jl ltac:(by left)) as [Hnl Hh].
    destruct (vat_in_range hofx (Z.of_nat jl) ltac:(lia)) as [x Hx].
    rewrite Hx. cbn [mbind result_bind rbind].
    pose proof (place_bound nv nl jl jvar Hjvar Hnl) as Hplace.
    unfold vset.
    assert ((Z.of_nat jl * Z.of_nat nv + jvar <? 0)
            || (Z.of_nat (length vals) <=? Z.of_nat jl * Z.of_nat nv + jvar) = false)
      as -> by (unfold place in Hplace; apply orb_false_intro; lia).
    cbn [mbind result_bind rbind].
    destruct (IH (<[place nv jl jvar := x]> vals)) as (vals' & Hrun & Hlen' & Hcells).
    { by rewrite length_insert. }
    { intros jloc Hjloc. apply Hin. by right. }
    exists vals'. split_and!; [exact Hrun|exact Hlen'|].
    intros jloc j Hj. rewrite Hcells by done.
    assert (hofx !! jl = Some x) as Hxl.
    { unfold vat in Hx. destruct (Z.ltb_spec (Z.of_nat jl) 0); [lia|].
      rewrite Nat2Z.id in Hx. by destruct (hofx !! jl) as [y|]; [injection Hx as ->|]. }
    destruct (decide (j = jvar /\ jloc ∈ jlocs)) as [Hyes|Hno].
    + rewrite (bool_decide_eq_true_2 _ Hyes).
      rewrite bool_decide_eq_true_2; [done|]. destruct Hyes. split; [done|by right].
    + rewrite (bool_decide_eq_false_2 _ Hno).
      destruct (decide (j = jvar /\ jloc = jl)) as [[-> ->]|Hother].
      * rewrite bool_decide_eq_true_2 by (split; [done|by left]).
        rewrite list_lookup_insert_eq by lia. by rewrite Hxl.
      * rewrite bool_decide_eq_false_2.
        2:{ intros [-> [->|Hj']%elem_of_cons]; [by apply Hother|by apply Hno]. }
        apply list_lookup_insert_ne. intros Heq.
        apply place_inj in Heq as [-> ->]; [by apply Hother|done..].
Qed.

Lemma after_cons hofx j js oper :
  operators_ !! Z.to_nat j = Some oper ->
  after hofx (j :: js) = after (oper gv odb_ hofx) js.
Proof. intros Hop. unfold hofx_after. cbn [foldl]. by rewrite Hop. Qed.

Lemma vat_lookup {A} (v : list A) i x : vat v i = Ok x -> v !! Z.to_nat i = Some x.
Proof.
  unfold vat. destruct (Z.ltb_spec i 0); [done|].
  destruct (v !! Z.to_nat i); [by intros [= ->]|done].
Qed.

Lemma simulate_loop_cells indices (hofx vals : list float) (nl nv : nat) :
  length hofx = nl ->
  length vals = (nl * nv)%nat ->
  (forall oper h, oper ∈ operators_ -> length (oper gv odb_ h) = length h) ->
  (forall jvar, jvar ∈ indices ->
     0 <= jvar < Z.of_nat (length operators_) /\ jvar < Z.of_nat nv) ->
  exists vals',
    simulate_loop operators_ odb_ gv indices hofx
      {| values := vals; nlocs := nl; nvars := nv |}
    = Ok {| values := vals'; nlocs := nl; nvars := nv |}
    /\ length vals' = (nl * nv)%nat
    /\ forall jloc j, (jloc < nl)%nat -> 0 <= j < Z.of_nat nv ->
         (j ∉ indices -> vals' !! place nv jloc j = vals !! place nv jloc j)
         /\ (NoDup indices -> forall pre post, indices = pre ++ j :: post ->
               vals' !! place nv jloc j = after hofx (pre ++ [j]) !! jloc).
Proof.
  intros Hh Hv Hops. revert hofx vals Hh Hv.
  induction indices as [|jvar rest IH]; intros hofx vals Hh Hv Hin; cbn [simulate_loop].
  - exists vals. split_and!; [done..|]. intros jloc j Hl Hj. split; [done|].
    intros _ pre post Heq. by destruct pre.
  - destruct (Hin jvar ltac:(by left)) as [Hop Hnv].
    destruct (vat_in_range operators_ jvar Hop) as [oper Hoper].
    rewrite Hoper. cbn [mbind result_bind rbind nvars nlocs values].
    pose proof (vat_lookup _ _ _ Hoper) as Hlook.
    assert (length (oper gv odb_ hofx) = nl) as Hh'.
    { rewrite Hops; [done|]. by eapply list_elem_of_lookup_2. }
    destruct (populate_cells nv jvar (oper gv odb_ hofx) (seq 0 nl) vals nl)
      as (vals1 & Hpop & Hlen1 & Hcells1); [lia|done| |].
    { intros jloc Hjloc. apply list_elem_of_In, in_seq in Hjloc. lia. }
    rewrite Hpop. cbn [mbind result_bind rbind].
    destruct (IH (oper gv odb_ hofx) vals1 Hh' Hlen1) as (vals' & Hrun & Hlen' & Hcells').
    { intros j Hj. apply Hin. by right. }
    exists vals'. split_and!; [exact Hrun|exact Hlen'|].
    intros jloc j Hl Hj.
    destruct (Hcells' jloc j Hl Hj) as [Hframe Hwritten].
    assert (jloc ∈ seq 0 nl) as Hseq by (apply list_elem_of_In, in_seq; lia).
    split.
    + intros Hnot. apply not_elem_of_cons in Hnot as [Hne Hnot].
      rewrite Hframe by done. rewrite Hcells1 by done.
      rewrite bool_decide_eq_false_2; [done|]. by intros [? _].
    + intros Hnd pre post Heq. apply NoDup_cons in Hnd as [Hfresh Hnd].
      destruct pre as [|p pre]; cbn [app] in Heq; injection Heq as Hhead Htail.
      * subst j rest. rewrite Hframe by done. rewrite Hcells1 by done.
        rewrite bool_decide_eq_true_2 by done.
        cbn [app]. by rewrite (after_cons _ _ _ _ Hlook).
      * subst p. cbn [app]. rewrite (after_cons _ _ _ _ Hlook).
        by apply (Hwritten Hnd pre post).
Qed.

(** X17: when every index of [operatorVarIndices_] selects one of the
    operators and one of the variables of the observation vector, the
    indices are distinct, the vector has nlocs * nvars values and the
    operators keep the length of [hofx], [simulateObs] ends normally and
    keeps the shape of the vector; the value of a variable outside the
    indices is unchanged at every location, and the value of variable [j] of
    the indices at location [jloc] is [hofx[jloc]] as the operator of [j]
    left it, [hofx] being handed from one operator to the next. *)
Theorem simulateObs_columns (operatorVarIndices_ : list Z)
    (ovec : @ObsVector float)
    (Hshape : length (values ovec) = (nlocs ovec * nvars ovec)%nat)
    (Hkeep : forall oper h, oper ∈ operators_ -> length (oper gv odb_ h) = length h)
    (Hindices : forall jvar, jvar ∈ operatorVarIndices_ ->
                  0 <= jvar < Z.of_nat (length operators_)
                  /\ jvar < Z.of_nat (nvars ovec))
    (Hdistinct : NoDup operatorVarIndices_) :
  exists vals',
    simulateObs zero operators_ operatorVarIndices_ odb_ gv ovec
      = Ok {| values := vals'; nlocs := nlocs ovec; nvars := nvars ovec |}
    /\ length vals' = length (values ovec)
    /\ forall jloc j, (jloc < nlocs ovec)%nat -> 0 <= j < Z.of_nat (nvars ovec) ->
         (j ∉ operatorVarIndices_ ->
          vals' !! place (nvars ovec) jloc j = values ovec !! place (nvars ovec) jloc j)
         /\ (forall pre post, operatorVarIndices_ = pre ++ j :: post ->
               vals' !! place (nvars ovec) jloc j
               = after (replicate (nlocs ovec) zero) (pre ++ [j]) !! jloc).
Proof.
  destruct ovec as [vals nl nv]. cbn [values nlocs nvars] in *.
  destruct (simulate_loop_cells operatorVarIndices_ (replicate nl zero) vals nl nv)
    as (vals' & Hrun & Hlen & Hcells); [by rewrite length_replicate|done..|].
  exists vals'. split_and!; [exact Hrun|lia|].
  intros jloc j Hl Hj. destruct (Hcells jloc j Hl Hj) as [Hframe Hwritten].
  split; [done|]. by apply Hwritten.
Qed.

Lemma simulate_loop_stops pre jvar post (hofx vals : list float) (nl nv : nat) :
  length hofx = nl ->
  length vals = (nl * nv)%nat ->
  (forall oper h, oper ∈ operators_ -> length (oper gv odb_ h) = length h) ->
  (forall j, j ∈ pre -> 0 <= j < Z.of_nat (length operators_) /\ j < Z.of_nat nv) ->
  jvar < 0 \/ Z.of_nat (length operators_) <= jvar ->
  simulate_loop operators_ odb_ gv (pre ++ jvar :: post) hofx
    {| values := vals; nlocs := nl; nvars := nv |}
  = Raise (OutOfBounds jvar (length operators_)).
Proof.
  intros Hh Hv Hops. revert hofx vals Hh Hv.
  induction pre as [|p pre IH]; intros hofx vals Hh Hv Hin Hout;
    cbn [app simulate_loop].
  - assert (vat operators_ jvar = Raise (OutOfBounds jvar (length operators_))) as ->.
    { unfold vat. destruct (Z.ltb_spec jvar 0); [done|].
      by rewrite lookup_ge_None_2 by lia. }
    done.
  - destruct (Hin p ltac:(by left)) as [Hop Hnv].
    destruct (vat_in_range operators_ p Hop) as [oper Hoper].
    rewrite Hoper. cbn [mbind result_bind rbind nvars nlocs values].
    assert (length (oper gv odb_ hofx) = nl) as Hh'.
    { rewrite Hops; [done|]. apply vat_lookup in Hoper.
      by eapply list_elem_of_lookup_2. }
    destruct (populate_cells nv p (oper gv odb_ hofx) (seq 0 nl) vals nl)
      as (vals1 & Hpop & Hlen1 & _); [lia|done| |].
    { intros jloc Hjloc. apply list_elem_of_In, in_seq in Hjloc. lia. }
    rewrite Hpop. cbn [mbind result_bind rbind].
    apply IH; [done..| |done]. intros j Hj. apply Hin. by right.
Qed.

(** X18: [simulateObs] takes its operator with [operators_[jvar]], [jvar]
    being an index into the variables of the observation vector: at the
    first index that is not below the number of operators it reads outside
    [operators_], whatever the vector holds. *)
Theorem simulateObs_index_beyond_operators (pre post : list Z) (jvar : Z)
    (ovec : @ObsVector float)
    (Hshape : length (values ovec) = (nlocs ovec * nvars ovec)%nat)
    (Hkeep : forall oper h, oper ∈ operators_ -> length (oper gv odb_ h) = length h)
    (Hbefore : forall j, j ∈ pre ->
                 0 <= j < Z.of_nat (length operators_) /\ j < Z.of_nat (nvars ovec))
    (Hbeyond : Z.of_nat (length operators_) <= jvar) :
  simulateObs zero operators_ (pre ++ jvar :: post) odb_ gv ovec
  = Raise (OutOfBounds jvar (length operators_)).
Proof.
  destruct ovec as [vals nl nv]. cbn [values nlocs nvars] in *.
  unfold simulateObs. cbn [nlocs].
  apply simulate_loop_stops; [by rewrite length_replicate|done..|by right].
Qed.

End SimulateObs.

(** ** Row selection: when it stays inside the vectors *)

Lemma select_loop_ok_iff sortIdx globalApply lmin lmax permuted locs idxs :
  (exists r, select_loop sortIdx globalApply lmin lmax permuted locs idxs = Ok r)
  <-> Forall (fun loc => lmin <= loc < lmax ->
                exists pos app, vat sortIdx loc = Ok pos /\ vat globalApply pos = Ok app)
        permuted.
Proof.
  revert locs idxs. induction permuted as [|loc rest IH]; intros locs idxs;
    cbn [select_loop].
  - split; [constructor|eauto].
  - rewrite Forall_cons.
    destruct (Z.geb_spec loc lmin), (Z.ltb_spec loc lmax); cbn [andb];
      try (rewrite IH; split; [intros Hr; split; [lia|done]|by intros [_ Hr]]).
    destruct (vat sortIdx loc) as [pos|e] eqn:Hpos; cbn [mbind result_bind rbind].
    2:{ split; [by intros [r Hr]|]. intros [Hloc _].
        destruct Hloc as (pos & app & Hp & _); [lia|done]. }
    destruct (vat globalApply pos) as [app|e] eqn:Happ; cbn [mbind result_bind rbind].
    2:{ split; [by intros [r Hr]|]. intros [Hloc _].
        destruct Hloc as (pos' & app & Hp & Ha); [lia|]. congruence. }
    destruct (app =? 0); rewrite IH; (split; [intros Hr; split; [eauto|done]|by intros [_ Hr]]).
Qed.

(** X3: for a gathered index of distinct row numbers that are not
    negative and a mask of the same length N, the selection loop ends
    normally exactly when every row number of the index that lies in the
    window is below N; otherwise it reads [sortIndices] outside
    [0 .. N-1]. *)
Theorem select_rows_in_bounds_iff (nlocs : nat) (lmin lmax : Z)
    (globalApply globalIndex : list Z)
    (Hlen : nlocs = length globalIndex) (Hmask : length globalApply = nlocs)
    (Hrows : Forall (fun loc => 0 <= loc) globalIndex) :
  (exists selection,
      select_rows nlocs lmin lmax globalApply globalIndex = Ok selection)
  <-> Forall (fun loc => lmin <= loc < lmax -> loc < Z.of_nat nlocs) globalIndex.
Proof.
  unfold select_rows. rewrite select_loop_ok_iff. subst nlocs.
  pose proof (permutedGlobalIndex_Permutation globalIndex) as Hperm.
  revert Hperm.
  generalize (permutedGlobalIndex globalIndex
                (sortIndices (length globalIndex) globalIndex)).
  intros permuted Hperm.
  assert (forall loc, loc ∈ permuted <-> loc ∈ globalIndex) as Hmem
    by (intros loc; by rewrite Hperm).
  rewrite Forall_forall in Hrows. rewrite !Forall_forall. split.
  - intros Hok loc Hin Hwin. apply Hmem in Hin.
    destruct (Hok loc Hin Hwin) as (pos & app & Hp & _).
    destruct (Z_lt_le_dec loc (Z.of_nat (length globalIndex))) as [|Hge]; [done|].
    rewrite vat_out_of_range in Hp; [done|].
    by rewrite sortIndices_length.
  - intros Hlt loc Hin Hwin. apply Hmem in Hin.
    specialize (Hlt loc Hin Hwin). specialize (Hrows loc Hin).
    destruct (vat_in_range (sortIndices (length globalIndex) globalIndex) loc)
      as [pos Hp]; [by rewrite sortIndices_length|].
    pose proof (sortIndices_in_range _ _ _ (vat_elem_of _ _ _ Hp)) as Hrange.
    destruct (vat_in_range globalApply pos) as [app Ha]; [by rewrite Hmask|].
    eauto.
Qed.

(** X4: when the gathered index holds every row number [0 .. N-1] once
    (no row was excluded upstream) and the mask has N entries, the
    selection loop ends normally, and every row number to print comes with
    a position inside the gathered columns at which the gathered index holds
    that row number. *)
Theorem selection_without_gaps (nlocs : nat) (lmin lmax : Z)
    (globalApply globalIndex : list Z)
    (Hlen : nlocs = length globalIndex) (Hmask : length globalApply = nlocs)
    (Hrows : Permutation globalIndex (iota nlocs)) :
  exists locsToPrint indicesToPrint,
    select_rows nlocs lmin lmax globalApply globalIndex
      = Ok (locsToPrint, indicesToPrint)
    /\ Forall2 (fun loc pos => 0 <= pos < Z.of_nat nlocs /\ vget globalIndex pos = loc)
         locsToPrint indicesToPrint.
Proof. by apply select_rows_without_gaps. Qed.

(** ** The order of the collective calls of doFilter *)

Section Order.

Context {float DateTime : Type}.
Context (show_float : bool -> Z -> float -> string).
Context (show_DateTime : Z -> DateTime -> string).
Context (float_eqb : float -> float -> bool).
Context (DateTime_eqb : DateTime -> DateTime -> bool).
Context (missing_int : Z) (missing_float : float)
        (missing_string : string) (missing_DateTime : DateTime).
Context (store : @ObsStore float DateTime) (parameters_ : Parameters_).

Abbreviation cache := (gmap string (@column float DateTime)).

(** X16: when [getAllData] ends normally, the collective calls of
    [doFilter] are those of [getAllData], all of them gathers of columns,
    followed by those of [printAllData] run on the cache that [getAllData]
    left; the welcome text makes none, and [doFilter] leaves the cache as
    [getAllData] left it. *)
Theorem doFilter_collective_order (c : cache)
    (Hgathered : out_value (getAllData store parameters_ c) = Ok tt) :
  let filter := doFilter show_float show_DateTime float_eqb DateTime_eqb
                  missing_int missing_float missing_string missing_DateTime
                  store parameters_ in
  let print := printAllData show_float show_DateTime float_eqb DateTime_eqb
                 missing_int missing_float missing_string missing_DateTime
                 store parameters_ in
  let gathered := getAllData store parameters_ c in
  collectives (filter c)
    = collectives gathered ++ collectives (print (out_cache gathered))
  /\ out_cache (filter c) = out_cache gathered
  /\ out_value (filter c) = out_value (print (out_cache gathered))
  /\ Forall (fun e => e <> Collective GatherApply /\ e <> Collective GatherIndex)
       (out_events gathered).
Proof.
  intros filter print gathered. subst filter. unfold doFilter.
  destruct (welcome_run store parameters_ c) as (text & Hw & Htext).
  rewrite (bind_run_ok _ _ c c text tt Hw).
  rewrite bind_run, Hgathered.
  cbn [out_value out_events out_cache]. fold gathered. fold print.
  destruct (printAllData_cache_and_collectives show_float show_DateTime float_eqb DateTime_eqb
              missing_int missing_float missing_string missing_DateTime
              store parameters_ (out_cache gathered)) as [Hcache _].
  split_and!.
  - unfold collectives. cbn [out_events]. rewrite !filter_app.
    assert (filter (fun e => is_collective e = true) text = []) as ->.
    { clear -Htext. induction Htext as [|e l He _ IH]; [done|].
      by rewrite filter_cons_False by congruence. }
    done.
  - exact Hcache.
  - done.
  - apply (column_gathers_getAllData store parameters_ c).
Qed.

End Order.

(** ** The further theorems on concrete runs *)

Lemma selection_without_gaps_witness :
  exists locsToPrint indicesToPrint,
    select_rows 4 1 6 [1; 0; 1; 1] [2; 0; 3; 1] = Ok (locsToPrint, indicesToPrint)
    /\ Forall2 (fun loc pos => 0 <= pos < Z.of_nat 4 /\ vget [2; 0; 3; 1] pos = loc)
         locsToPrint indicesToPrint.
Proof.
  assert (every_row : Permutation [2; 0; 3; 1] (iota 4)).
  { symmetry. exact (stable_sort_Permutation Z.ltb [2; 0; 3; 1]). }
  exact (selection_without_gaps 4 1 6 [1; 0; 1; 1] [2; 0; 3; 1]
           eq_refl eq_refl every_row).
Defined.

Lemma doFilter_stops_on_invalid_type_witness :
  let store := MoreScenarios.retyped ObsDtype.None Scenario.with_pressure in
  let cfg := Scenario.config [Scenario.pressure] 0 0 in
  out_value (Scenario.run store cfg doFilter) = Raise invalid_type
  /\ Forall (fun e => e <> Collective GatherApply /\ e <> Collective GatherIndex)
       (out_events (Scenario.run store cfg doFilter)).
Proof.
  intros store cfg.
  assert (invalid : forallb (dispatchable store) (variables cfg) = false)
    by (vm_compute; reflexivity).
  destruct (doFilter_stops_on_invalid_type (fun _ _ => pretty) Scenario.show_Z
              Z.eqb Z.eqb (-999) (-999) "MISSING" (-999) store cfg ∅ invalid)
    as (Hvalue & _ & Hnone).
  split; [exact Hvalue|exact Hnone].
Defined.

Lemma getAllData_absent_fields_witness :
  let cfg := Scenario.config [Scenario.pressure; Scenario.brightness] 0 0 in
  getAllData Scenario.six_locations cfg ∅
  = Outcome (map (fun variableParams =>
                    Emit (not_present (fullName (pvariable variableParams))))
               (variables cfg))
      ∅ (Ok tt).
Proof.
  intros cfg.
  assert (absent : forall variableParams, variableParams ∈ variables cfg ->
            has Scenario.six_locations (pvariable variableParams) = false)
    by (intros variableParams _; reflexivity).
  exact (getAllData_absent_fields Scenario.six_locations cfg ∅ absent).
Defined.


Lemma printVariable_failures_witness :
  let c : gmap string (@column Z Z) := {[ "MetaData/pressure" := IntColumn [1000; 900] ]} in
  printVariable (fun _ _ => pretty) Scenario.show_Z Z.eqb Z.eqb
    (-999) (-999) "MISSING" (-999) (Scenario.config [] 0 0) TFloat
    "MetaData/pressure" 0 c
  = Outcome [] c (Raise BadGet).
Proof.
  intros c.
  assert (cached : c !! "MetaData/pressure" = Some (IntColumn [1000; 900]))
    by (vm_compute; reflexivity).
  exact (proj1 (printVariable_failures (fun _ _ => pretty) Scenario.show_Z Z.eqb Z.eqb
                  (-999) (-999) "MISSING" (-999) (Scenario.config [] 0 0) TFloat
                  "MetaData/pressure" 0 c (IntColumn [1000; 900]) cached) eq_refl).
Defined.

Lemma simulateObs_columns_witness :
  exists vals',
    ObsSfcCorrected.simulateObs 0 [MoreScenarios.constant 7] [0] tt tt
      MoreScenarios.two_by_two
    = Ok {| ObsSfcCorrected.values := vals';
            ObsSfcCorrected.nlocs := 2; ObsSfcCorrected.nvars := 2 |}
    /\ length vals' = 4%nat.
Proof.
  assert (keep : forall oper h, oper ∈ [MoreScenarios.constant 7] ->
                   length (oper tt tt h) = length h).
  { intros oper h Hin. apply list_elem_of_singleton in Hin. subst oper.
    apply length_map. }
  assert (indices : forall jvar, jvar ∈ [0] ->
            0 <= jvar < Z.of_nat (length [MoreScenarios.constant 7])
            /\ jvar < Z.of_nat (ObsSfcCorrected.nvars MoreScenarios.two_by_two)).
  { intros jvar Hin. apply list_elem_of_singleton in Hin. subst jvar. cbn. lia. }
  destruct (simulateObs_columns 0 [MoreScenarios.constant 7] tt tt [0]
              MoreScenarios.two_by_two eq_refl keep indices (NoDup_singleton 0))
    as (vals' & Hrun & Hlen & _).
  exists vals'. split; [exact Hrun|exact Hlen].
Defined.

Lemma simulateObs_index_beyond_operators_witness :
  ObsSfcCorrected.simulateObs 0 [MoreScenarios.constant 7] [1] tt tt
    MoreScenarios.two_by_two
  = Raise (OutOfBounds 1 1).
Proof.
  assert (keep : forall oper h, oper ∈ [MoreScenarios.constant 7] ->
                   length (oper tt tt h) = length h).
  { intros oper h Hin. apply list_elem_of_singleton in Hin. subst oper.
    apply length_map. }
  assert (before : forall j, j ∈ [] ->
            0 <= j < Z.of_nat (length [MoreScenarios.constant 7])
            /\ j < Z.of_nat (ObsSfcCorrected.nvars MoreScenarios.two_by_two))
    by (intros j Hin; by apply elem_of_nil in Hin).
  assert (beyond : Z.of_nat (length [MoreScenarios.constant 7]) <= 1) by (cbn; lia).
  exact (simulateObs_index_beyond_operators 0 [MoreScenarios.constant 7] tt tt
           [] [] 1 MoreScenarios.two_by_two eq_refl keep before beyond).
Defined.

Lemma select_rows_in_bounds_iff_witness :
  (exists selection, select_rows 4 0 4 [1; 1; 1; 1] [2; 4; 1; 3] = Ok selection)
  <-> Forall (fun loc => 0 <= loc < 4 -> loc < Z.of_nat 4) [2; 4; 1; 3].
Proof.
  assert (rows : Forall (fun loc => 0 <= loc) [2; 4; 1; 3])
    by (repeat constructor; lia).
  exact (select_rows_in_bounds_iff 4 0 4 [1; 1; 1; 1] [2; 4; 1; 3] eq_refl eq_refl rows).
Defined.

Lemma doFilter_collective_order_witness :
  let cfg := Scenario.config [Scenario.brightness] 0 0 in
  collectives (Scenario.run Scenario.both_channels cfg doFilter)
  = collectives (getAllData Scenario.both_channels cfg ∅)
    ++ collectives (printAllData (fun _ _ => pretty) Scenario.show_Z Z.eqb Z.eqb
                      (-999) (-999) "MISSING" (-999) Scenario.both_channels cfg
                      (out_cache (getAllData Scenario.both_channels cfg ∅))).
Proof.
  intros cfg.
  assert (gathered : out_value (getAllData Scenario.both_channels cfg ∅) = Ok tt)
    by (vm_compute; reflexivity).
  exact (proj1 (doFilter_collective_order (fun _ _ => pretty) Scenario.show_Z
                  Z.eqb Z.eqb (-999) (-999) "MISSING" (-999)
                  Scenario.both_channels cfg ∅ gathered)).
Defined.
